(** * McpServerProxy: the relay between a local MCP transport and a remote
    container WebSocket

    Shallow embedding of [packages/mcp-proxy/src/mcp-server-proxy.ts].

    The class keeps four private fields and talks to three kinds of host
    objects: the WebSocket to the remote container, the MCP transports that
    local sessions attach, and the promise job queue of the JavaScript run
    time.  Every method is embedded as a computation in a state-and-exception
    monad over a [World] that holds the object, the host objects it has
    touched, the promise reactions that have not run yet, and the trace of
    the calls the relay made on its collaborators. *)

From Stdlib Require Import ZArith String Ascii List Bool Lia.
From stdpp Require Import base option list gmap strings.

Open Scope string_scope.
Open Scope Z_scope.
Open Scope list_scope.

(** ** JSON values *)

Module JSON.

(** A parsed JSON text.  Numbers keep their source lexeme (the relay never
    computes with them); object members keep their source order. *)
#[warnings="-register-all"]
Inductive value : Type :=
| Null
| Bool (b : bool)
| Number (lexeme : string)
| Str (s : string)
| Array (items : list value)
| Object (members : list (string * value)).

Fixpoint member (key : string) (members : list (string * value)) : option value :=
  match members with
  | [] => None
  | (k, v) :: rest => if String.eqb k key then Some v else member key rest
  end.


(** *** A reference [JSON.parse]

    The grammar of ECMA-404 over the 8-bit characters of [string]:
    [None] stands for the [SyntaxError] that [JSON.parse] throws. *)

Definition quote : ascii := "034"%char.
Definition backslash : ascii := "092"%char.

Definition is_ws (c : ascii) : bool :=
  match nat_of_ascii c with
  | 9%nat | 10%nat | 13%nat | 32%nat => true
  | _ => false
  end.

Definition is_digit (c : ascii) : bool :=
  let n := nat_of_ascii c in (48 <=? n)%nat && (n <=? 57)%nat.

Definition hex_digit (c : ascii) : option nat :=
  let n := nat_of_ascii c in
  if (48 <=? n)%nat && (n <=? 57)%nat then Some (n - 48)%nat
  else if (65 <=? n)%nat && (n <=? 70)%nat then Some (n - 55)%nat
  else if (97 <=? n)%nat && (n <=? 102)%nat then Some (n - 87)%nat
  else None.

Fixpoint skip_ws (s : string) : string :=
  match s with
  | String c rest => if is_ws c then skip_ws rest else s
  | EmptyString => s
  end.

(** The longest prefix of digits, and the rest. *)
Fixpoint digits (s : string) : string * string :=
  match s with
  | String c rest =>
      if is_digit c then let '(d, r) := digits rest in (String c d, r)
      else (EmptyString, s)
  | EmptyString => (EmptyString, s)
  end.

(** An optional minus sign; an integer part that is the digit 0 alone or
    starts with a non-zero digit; an optional fraction (a dot and at least
    one digit); an optional exponent (e or E, an optional sign, at least
    one digit). *)
Definition number (s : string) : option (string * string) :=
  let '(sign, s1) :=
    match s with
    | String "-"%char rest => ("-", rest)
    | _ => ("", s)
    end in
  let '(int, s2) := digits s1 in
  match int with
  | EmptyString => None
  | String "0"%char (String _ _) => None
  | _ =>
      let after_frac :=
        match s2 with
        | String "."%char rest =>
            let '(frac, s3) := digits rest in
            match frac with
            | EmptyString => None
            | _ => Some (String "."%char frac, s3)
            end
        | _ => Some ("", s2)
        end in
      match after_frac with
      | None => None
      | Some (frac, s3) =>
          let after_exp :=
            match s3 with
            | String e rest =>
                if Ascii.eqb e "e"%char || Ascii.eqb e "E"%char then
                  let '(esign, s4) :=
                    match rest with
                    | String "+"%char r => ("+", r)
                    | String "-"%char r => ("-", r)
                    | _ => ("", rest)
                    end in
                  let '(ex, s5) := digits s4 in
                  match ex with
                  | EmptyString => None
                  | _ => Some (String e (esign +:+ ex), s5)
                  end
                else Some ("", s3)
            | EmptyString => Some ("", s3)
            end in
          match after_exp with
          | None => None
          | Some (ex, s5) => Some (sign +:+ int +:+ frac +:+ ex, s5)
          end
      end
  end.

(** The characters of a string token after its opening quote, up to and
    including the closing quote.  A [\uXXXX] escape below 256 becomes
    that character; a larger code unit does not fit the 8-bit characters
    of the model and is kept as its six source characters. *)
Fixpoint string_body (s : string) : option (string * string) :=
  match s with
  | EmptyString => None
  | String c rest =>
      if Ascii.eqb c quote then Some (EmptyString, rest)
      else if Ascii.eqb c backslash then
        match rest with
        | String e rest' =>
            let simple (d : ascii) :=
              match string_body rest' with
              | Some (body, r) => Some (String d body, r)
              | None => None
              end in
            if Ascii.eqb e quote then simple quote
            else if Ascii.eqb e backslash then simple backslash
            else if Ascii.eqb e "/"%char then simple "/"%char
            else if Ascii.eqb e "b"%char then simple "008"%char
            else if Ascii.eqb e "f"%char then simple "012"%char
            else if Ascii.eqb e "n"%char then simple "010"%char
            else if Ascii.eqb e "r"%char then simple "013"%char
            else if Ascii.eqb e "t"%char then simple "009"%char
            else if Ascii.eqb e "u"%char then
              match rest' with
              | String h1 (String h2 (String h3 (String h4 rest''))) =>
                  match hex_digit h1, hex_digit h2, hex_digit h3, hex_digit h4,
                        string_body rest'' with
                  | Some a, Some b, Some c', Some d, Some (body, r) =>
                      let code := (((a * 16 + b) * 16 + c') * 16 + d)%nat in
                      if (code <? 256)%nat
                      then Some (String (ascii_of_nat code) body, r)
                      else Some (String backslash (String "u"%char (String h1 (String h2
                                   (String h3 (String h4 body))))), r)
                  | _, _, _, _, _ => None
                  end
              | _ => None
              end
            else None
        | EmptyString => None
        end
      else if (nat_of_ascii c <? 32)%nat then None
      else
        match string_body rest with
        | Some (body, r) => Some (String c body, r)
        | None => None
        end
  end.

Definition literal (word : string) (v : value) (s : string) : option (value * string) :=
  if String.prefix word s
  then Some (v, substring (String.length word) (String.length s) s)
  else None.

(** Recursive descent on [fuel]; running out of fuel reads as a syntax
    error.  [parse] starts with twice the length of the text, plus two. *)
Fixpoint parse_value (fuel : nat) (s : string) : option (value * string) :=
  match fuel with
  | O => None
  | S fuel' =>
      match skip_ws s with
      | EmptyString => None
      | String c rest as s' =>
          if Ascii.eqb c "n"%char then literal "null" Null s'
          else if Ascii.eqb c "t"%char then literal "true" (Bool true) s'
          else if Ascii.eqb c "f"%char then literal "false" (Bool false) s'
          else if Ascii.eqb c quote then
            match string_body rest with
            | Some (body, r) => Some (Str body, r)
            | None => None
            end
          else if Ascii.eqb c "["%char then
            match skip_ws rest with
            | String "]"%char r => Some (Array [], r)
            | _ =>
                match parse_elements fuel' rest with
                | Some (items, r) => Some (Array items, r)
                | None => None
                end
            end
          else if Ascii.eqb c "{"%char then
            match skip_ws rest with
            | String "}"%char r => Some (Object [], r)
            | _ =>
                match parse_members fuel' rest with
                | Some (members, r) => Some (Object members, r)
                | None => None
                end
            end
          else
            match number s' with
            | Some (lexeme, r) => Some (Number lexeme, r)
            | None => None
            end
      end
  end
with parse_elements (fuel : nat) (s : string) : option (list value * string) :=
  match fuel with
  | O => None
  | S fuel' =>
      match parse_value fuel' s with
      | None => None
      | Some (v, r) =>
          match skip_ws r with
          | String ","%char r' =>
              match parse_elements fuel' r' with
              | Some (vs, r'') => Some (v :: vs, r'')
              | None => None
              end
          | String "]"%char r' => Some ([v], r')
          | _ => None
          end
      end
  end
with parse_members (fuel : nat) (s : string) : option (list (string * value) * string) :=
  match fuel with
  | O => None
  | S fuel' =>
      match skip_ws s with
      | String c rest =>
          if Ascii.eqb c quote then
            match string_body rest with
            | None => None
            | Some (key, r) =>
                match skip_ws r with
                | String ":"%char r' =>
                    match parse_value fuel' r' with
                    | None => None
                    | Some (v, r'') =>
                        match skip_ws r'' with
                        | String ","%char r3 =>
                            match parse_members fuel' r3 with
                            | Some (ms, r4) => Some ((key, v) :: ms, r4)
                            | None => None
                            end
                        | String "}"%char r3 => Some ([(key, v)], r3)
                        | _ => None
                        end
                    end
                | _ => None
                end
            end
          else None
      | EmptyString => None
      end
  end.

Definition parse (text : string) : option value :=
  match parse_value (2 * String.length text + 2) text with
  | Some (v, rest) =>
      match skip_ws rest with
      | EmptyString => Some v
      | _ => None
      end
  | None => None
  end.

(** *** A reference [JSON.stringify] (no indentation) *)

Definition hex_char (n : nat) : ascii :=
  ascii_of_nat (if (n <? 10)%nat then 48 + n else 87 + n)%nat.

Fixpoint escape (s : string) : string :=
  match s with
  | EmptyString => EmptyString
  | String c rest =>
      let n := nat_of_ascii c in
      if Ascii.eqb c quote then String backslash (String quote (escape rest))
      else if Ascii.eqb c backslash then String backslash (String backslash (escape rest))
      else if (n =? 8)%nat then String backslash (String "b"%char (escape rest))
      else if (n =? 12)%nat then String backslash (String "f"%char (escape rest))
      else if (n =? 10)%nat then String backslash (String "n"%char (escape rest))
      else if (n =? 13)%nat then String backslash (String "r"%char (escape rest))
      else if (n =? 9)%nat then String backslash (String "t"%char (escape rest))
      else if (n <? 32)%nat then
        String backslash (String "u"%char (String "0"%char (String "0"%char
          (String (hex_char (n / 16)) (String (hex_char (n mod 16)) (escape rest))))))
      else String c (escape rest)
  end.

Definition quoted (s : string) : string :=
  String quote (escape s +:+ String quote EmptyString).

Fixpoint stringify (v : value) : string :=
  match v with
  | Null => "null"
  | Bool true => "true"
  | Bool false => "false"
  | Number lexeme => lexeme
  | Str s => quoted s
  | Array items =>
      "[" +:+
      (fix items_text (l : list value) : string :=
         match l with
         | [] => ""
         | x :: rest =>
             match rest with
             | [] => stringify x
             | _ => stringify x +:+ "," +:+ items_text rest
             end
         end) items +:+ "]"
  | Object members =>
      "{" +:+
      (fix members_text (l : list (string * value)) : string :=
         match l with
         | [] => ""
         | (k, x) :: rest =>
             match rest with
             | [] => quoted k +:+ ":" +:+ stringify x
             | _ => quoted k +:+ ":" +:+ stringify x +:+ "," +:+ members_text rest
             end
         end) members +:+ "}"
  end.

End JSON.

(** ** The run-time functions the relay calls

    [JSON.parse], [JSON.stringify] and [new TextDecoder().decode] belong to
    the JavaScript host, not to the repository.  The relay is stated over
    any implementation of the three: [None] from [JSON_parse] is the
    [SyntaxError]; a [TextDecoder] built without options never throws. *)
Class Platform := {
  JSON_parse : string -> option JSON.value;
  JSON_stringify : JSON.value -> string;
  TextDecoder_decode : list Byte.byte -> string;
}.

(** ** Data model *)

(** Object identities of the host objects passed to the relay. *)
Definition WebSocketRef : Type := nat.
Definition TransportRef : Type := nat.

(** The [string | ArrayBuffer] argument of the two forwarding methods.  The
    characters of a [string] stand for the code units of the JavaScript
    string. *)
Inductive Payload : Type :=
| Text (s : string)
| Binary (bytes : list Byte.byte).

(** How a call to a promise-returning method of a transport ends: with a
    promise that later fulfils, with one that later rejects, or with an
    exception thrown before any promise is returned. *)
Inductive Settlement : Type := Resolves | Rejects | ThrowsSync.

Definition rejects (s : Settlement) : bool :=
  match s with
  | Rejects => true
  | _ => false
  end.

(** What the relay can observe of its surroundings at one instant.  The
    relay controls none of it. *)
Record Host : Type := {
  readyState : WebSocketRef -> Z;
  ws_send_throws : WebSocketRef -> Payload -> bool;
  transport_send : TransportRef -> JSON.value -> Settlement;
  transport_close : TransportRef -> Settlement;
  Date_now : Z;
}.

(** The private fields of the class. *)
Record McpServerProxy : Type := {
  proxyConnection : option WebSocketRef;
  connectedTransport : option TransportRef;
  isProxyConnected : bool;
  lastConnectionTime : Z;
}.

(** [constructor()] and the field initialisers. *)
Definition new_McpServerProxy : McpServerProxy :=
  {| proxyConnection := None;
     connectedTransport := None;
     isProxyConnected := false;
     lastConnectionTime := 0 |}.

Inductive WsEventType : Type := close | error.

(** The arrow function that [connect] assigns to [transport.onmessage];
    the class has only this one. *)
Inductive MessageHandler : Type := forwardStringified.

(** The promise reactions the relay registers, each with the way its
    promise will settle: [afterDisconnectSend] is the
    [.catch(...).finally(...)] chain that [connect] hangs on the send of the
    cancellation notice, [afterForwardSend] the [.catch(...)] that
    [handleProxyMessage] hangs on the delivery of a remote message. *)
Inductive Reaction : Type :=
| afterDisconnectSend (rejected : bool)
| afterForwardSend (rejected : bool).

Inductive Level : Type := log | warn | err.

(** One constructor per [console] call site, with the data it prints. *)
Inductive LogEntry : Type :=
| SettingConnectionNull
| SettingConnection (readyState : Z)
| WebSocketClosed
| WebSocketError
| UpdatingConnectionState
| ConnectionCheck (hasConnection isMarkedConnected : bool)
    (readyState : option Z) (readyStateText : string)
    (lastConnectionTime timeSinceConnectionMs : Z) (result : bool)
| DebugConnectionState (hasConnection isMarkedConnected : bool)
    (readyState : option Z) (readyStateText : string)
    (lastConnectionTime timeSinceConnectionMs : Z) (isConnectedResult : bool)
| ErrorForwardingToTransport
| ErrorParsingProxyMessage
| DisconnectingPreviousTransport
| ErrorSendingDisconnect
| SettingTransport
| AttemptingForward
| ConnectionStatus (isConnected : bool)
| SendingToWebSocket
| ErrorSendingToProxy
| CannotForward (preview : string).

(** The calls the relay makes on its collaborators, oldest first. *)
Inductive Event : Type :=
| Console (level : Level) (entry : LogEntry)
| WsSend (ws : WebSocketRef) (data : Payload)
| TransportSend (t : TransportRef) (message : JSON.value)
| TransportClose (t : TransportRef)
| UnhandledRejection.

(** The relay and what surrounds it: [listeners] are the listeners the
    relay added, in the order of the [addEventListener] calls; [onmessage]
    is the [onmessage] property of each transport the relay assigned it on;
    [reactions] are the reactions on promises that have not settled yet. *)
Record World : Type := {
  this : McpServerProxy;
  host : Host;
  listeners : list (WebSocketRef * WsEventType);
  onmessage : gmap TransportRef MessageHandler;
  reactions : list Reaction;
  trace : list Event;
}.

Definition with_this (f : McpServerProxy -> McpServerProxy) (w : World) : World :=
  {| this := f (this w); host := host w; listeners := listeners w;
     onmessage := onmessage w; reactions := reactions w; trace := trace w |}.

Definition with_host (h : Host) (w : World) : World :=
  {| this := this w; host := h; listeners := listeners w;
     onmessage := onmessage w; reactions := reactions w; trace := trace w |}.

Definition set_proxyConnection (v : option WebSocketRef) (p : McpServerProxy) :=
  {| proxyConnection := v; connectedTransport := connectedTransport p;
     isProxyConnected := isProxyConnected p;
     lastConnectionTime := lastConnectionTime p |}.

Definition set_connectedTransport (v : option TransportRef) (p : McpServerProxy) :=
  {| proxyConnection := proxyConnection p; connectedTransport := v;
     isProxyConnected := isProxyConnected p;
     lastConnectionTime := lastConnectionTime p |}.

Definition set_isProxyConnected (v : bool) (p : McpServerProxy) :=
  {| proxyConnection := proxyConnection p;
     connectedTransport := connectedTransport p;
     isProxyConnected := v; lastConnectionTime := lastConnectionTime p |}.

Definition set_lastConnectionTime (v : Z) (p : McpServerProxy) :=
  {| proxyConnection := proxyConnection p;
     connectedTransport := connectedTransport p;
     isProxyConnected := isProxyConnected p; lastConnectionTime := v |}.

(** ** The monad of method bodies: state, and exceptions that [try] can
    catch *)

Inductive Exception : Type :=
| SyntaxError
| WebSocketSendError (ws : WebSocketRef)
| TransportError (t : TransportRef).

Inductive Completion (A : Type) : Type :=
| Returned (a : A)
| Thrown (e : Exception).
Arguments Returned {A} a.
Arguments Thrown {A} e.

Definition Js (A : Type) : Type := World -> Completion A * World.

Definition ret {A} (a : A) : Js A := fun w => (Returned a, w).

Definition bind {A B} (m : Js A) (k : A -> Js B) : Js B :=
  fun w =>
    match m w with
    | (Returned a, w') => k a w'
    | (Thrown e, w') => (Thrown e, w')
    end.

Definition throw {A} (e : Exception) : Js A := fun w => (Thrown e, w).

Definition try_catch {A} (body : Js A) (handler : Exception -> Js A) : Js A :=
  fun w =>
    match body w with
    | (Returned a, w') => (Returned a, w')
    | (Thrown e, w') => handler e w'
    end.

Notation "x <- m ;; k" := (bind m (fun x => k))
  (at level 100, m at next level, right associativity).
Notation "m ;; k" := (bind m (fun _ => k))
  (at level 100, right associativity).

Definition read {A} (f : World -> A) : Js A := fun w => (Returned (f w), w).
Definition modify (f : World -> World) : Js unit := fun w => (Returned tt, f w).
Definition when (b : bool) (m : Js unit) : Js unit := if b then m else ret tt.

Definition emit (e : Event) : Js unit :=
  modify (fun w =>
    {| this := this w; host := host w; listeners := listeners w;
       onmessage := onmessage w; reactions := reactions w;
       trace := trace w ++ [e] |}).

Definition console (level : Level) (entry : LogEntry) : Js unit :=
  emit (Console level entry).

Definition assign (f : McpServerProxy -> McpServerProxy) : Js unit :=
  modify (with_this f).

Definition addEventListener (ws : WebSocketRef) (type : WsEventType) : Js unit :=
  modify (fun w =>
    {| this := this w; host := host w;
       listeners := listeners w ++ [(ws, type)];
       onmessage := onmessage w; reactions := reactions w; trace := trace w |}).

Definition set_onmessage (t : TransportRef) (h : MessageHandler) : Js unit :=
  modify (fun w =>
    {| this := this w; host := host w; listeners := listeners w;
       onmessage := <[t := h]> (onmessage w);
       reactions := reactions w; trace := trace w |}).

Definition register (r : Reaction) : Js unit :=
  modify (fun w =>
    {| this := this w; host := host w; listeners := listeners w;
       onmessage := onmessage w; reactions := reactions w ++ [r];
       trace := trace w |}).

(** [ws.send(data)]: returns nothing, or throws. *)
Definition WebSocket_send (ws : WebSocketRef) (data : Payload) : Js unit :=
  emit (WsSend ws data) ;;
  throws <- read (fun w => ws_send_throws (host w) ws data) ;;
  if throws : bool then throw (WebSocketSendError ws) else ret tt.

(** [t.send(message)]: returns a promise, fulfilled ([false]) or rejected
    ([true]) later, or throws. *)
Definition Transport_send (t : TransportRef) (message : JSON.value) : Js bool :=
  emit (TransportSend t message) ;;
  outcome <- read (fun w => transport_send (host w) t message) ;;
  match outcome with
  | Resolves => ret false
  | Rejects => ret true
  | ThrowsSync => throw (TransportError t)
  end.

(** [t.close()], likewise. *)
Definition Transport_close (t : TransportRef) : Js bool :=
  emit (TransportClose t) ;;
  outcome <- read (fun w => transport_close (host w) t) ;;
  match outcome with
  | Resolves => ret false
  | Rejects => ret true
  | ThrowsSync => throw (TransportError t)
  end.

(** The reference platform: the two JSON functions above, and a decoder
    that is exact on 7-bit input. *)
#[export] Instance reference_platform : Platform := {|
  JSON_parse := JSON.parse;
  JSON_stringify := JSON.stringify;
  TextDecoder_decode := string_of_list_byte;
|}.

(** ** The methods of [McpServerProxy] *)

(** [this.f] *)
Definition field {A} (f : McpServerProxy -> A) : Js A := read (fun w => f (this w)).

(** [rs === n] for a [readyState] that is [undefined] when there is no
    connection. *)
Definition readyState_is (rs : option Z) (n : Z) : bool :=
  match rs with
  | Some z => z =? n
  | None => false
  end.

Definition readyStateText (rs : option Z) : string :=
  if readyState_is rs 0 then "CONNECTING"
  else if readyState_is rs 1 then "OPEN"
  else if readyState_is rs 2 then "CLOSING"
  else if readyState_is rs 3 then "CLOSED"
  else "UNKNOWN".

(** The bodies of the two listeners that [setProxyConnection] adds: on
    close, [isProxyConnected = false; proxyConnection = null]; on error,
    [isProxyConnected = false]. *)
Definition listener (type : WsEventType) : Js unit :=
  match type with
  | close =>
      console log WebSocketClosed ;;
      assign (set_isProxyConnected false) ;;
      assign (set_proxyConnection None)
  | error =>
      console log WebSocketError ;;
      assign (set_isProxyConnected false)
  end.

(** [setProxyConnection(webSocket: WebSocket | null)] *)
Definition setProxyConnection (webSocket : option WebSocketRef) : Js unit :=
  match webSocket with
  | None =>
      console log SettingConnectionNull ;;
      assign (set_proxyConnection None) ;;
      assign (set_isProxyConnected false)
  | Some ws =>
      rs <- read (fun w => readyState (host w) ws) ;;
      console log (SettingConnection rs) ;;
      assign (set_proxyConnection (Some ws)) ;;
      assign (set_isProxyConnected true) ;;
      now <- read (fun w => Date_now (host w)) ;;
      assign (set_lastConnectionTime now) ;;
      addEventListener ws close ;;
      addEventListener ws error
  end.

(** [isConnected()].  The three constants are read first; the test that
    clears the flag reads the two fields again; the result is computed from
    the constants. *)
Definition isConnected : Js bool :=
  conn <- field proxyConnection ;;
  let hasConnection := bool_decide (conn <> None) in
  isMarkedConnected <- field isProxyConnected ;;
  rs <- read (fun w => readyState (host w) <$> proxyConnection (this w)) ;;
  conn' <- field proxyConnection ;;
  marked' <- field isProxyConnected ;;
  when (bool_decide (conn' <> None) && (readyState_is rs 3 || readyState_is rs 2) && marked')
    (console log UpdatingConnectionState ;;
     assign (set_isProxyConnected false)) ;;
  let actuallyConnected := hasConnection && isMarkedConnected && negb (readyState_is rs 3) in
  when (negb actuallyConnected || negb (readyState_is rs 1))
    (now <- read (fun w => Date_now (host w)) ;;
     last <- field lastConnectionTime ;;
     console log (ConnectionCheck hasConnection isMarkedConnected rs
                    (readyStateText rs) last (now - last) actuallyConnected)) ;;
  ret actuallyConnected.

(** [debugConnectionState()]: the object it logs is built field by field,
    the call of [isConnected] last. *)
Definition debugConnectionState : Js unit :=
  conn <- field proxyConnection ;;
  let hasConnection := bool_decide (conn <> None) in
  isMarkedConnected <- field isProxyConnected ;;
  rs <- read (fun w => readyState (host w) <$> proxyConnection (this w)) ;;
  now <- read (fun w => Date_now (host w)) ;;
  last <- field lastConnectionTime ;;
  result <- isConnected ;;
  console log (DebugConnectionState hasConnection isMarkedConnected rs
                 (readyStateText rs) last (now - last) result).

(** The second argument of the warning in [forwardToProxy]:
    [data.substring(0, 100) + '...'] for a string, a fixed text otherwise. *)
Definition preview (data : Payload) : string :=
  match data with
  | Text s => substring 0 100 s +:+ "..."
  | Binary _ => "[Binary Data]"
  end.

(** [forwardToProxy(data)]; the test is
    [isConnected && this.proxyConnection]. *)
Definition forwardToProxy (data : Payload) : Js unit :=
  console log AttemptingForward ;;
  connected <- isConnected ;;
  console log (ConnectionStatus connected) ;;
  conn <- field proxyConnection ;;
  match (if connected then conn else None) with
  | Some ws =>
      try_catch
        (console log SendingToWebSocket ;;
         WebSocket_send ws data)
        (fun _ =>
           console err ErrorSendingToProxy ;;
           assign (set_isProxyConnected false))
  | None =>
      console warn (CannotForward (preview data))
  end.

(** The notification [connect] sends to the transport it retires. *)
Definition disconnectMessage : JSON.value :=
  JSON.Object
    [("jsonrpc", JSON.Str "2.0");
     ("method", JSON.Str "notifications/cancelled");
     ("params", JSON.Object
        [("reason", JSON.Str "New client connected, previous connection terminated")])].

(** [async connect(transport)]: a [Thrown] completion is the rejection of
    the promise the method returns.  The body has no [await], so it runs to
    its end before any promise reaction does. *)
Definition connect (transport : TransportRef) : Js unit :=
  previous <- field connectedTransport ;;
  match previous with
  | Some t =>
      console log DisconnectingPreviousTransport ;;
      rejected <- Transport_send t disconnectMessage ;;
      register (afterDisconnectSend rejected)
  | None => ret tt
  end ;;
  assign (set_connectedTransport (Some transport)) ;;
  console log SettingTransport ;;
  set_onmessage transport forwardStringified.

(** What a registered reaction does once its promise has settled.  The
    [finally] callback of [connect] is
    [() => { this.connectedTransport?.close?.(); }]: it reads the field
    when it runs, and what [close] returns is dropped. *)
Definition react (r : Reaction) : Js unit :=
  match r with
  | afterForwardSend rejected =>
      when rejected (console err ErrorForwardingToTransport)
  | afterDisconnectSend rejected =>
      when rejected (console err ErrorSendingDisconnect) ;;
      current <- field connectedTransport ;;
      match current with
      | Some t =>
          close_rejected <- Transport_close t ;;
          when close_rejected (emit UnhandledRejection)
      | None => ret tt
      end
  end.

(** The host runs the [i]-th pending reaction, if there is one; what it
    throws is nobody's to catch. *)
Definition settle (i : nat) : Js unit :=
  pending <- read reactions ;;
  match pending !! i with
  | Some r =>
      modify (fun w =>
        {| this := this w; host := host w; listeners := listeners w;
           onmessage := onmessage w; reactions := delete i (reactions w);
           trace := trace w |}) ;;
      try_catch (react r) (fun _ => emit UnhandledRejection)
  | None => ret tt
  end.

(** Whether listener [l] was added on [ws] for [type]. *)
Definition same_listener (ws : WebSocketRef) (type : WsEventType)
    (l : WebSocketRef * WsEventType) : bool :=
  Nat.eqb (fst l) ws &&
  match snd l, type with
  | close, close | error, error => true
  | _, _ => false
  end.

(** The host fires [type] on [ws]: its listeners run in the order they
    were added. *)
Fixpoint call_listeners (ls : list (WebSocketRef * WsEventType))
    (ws : WebSocketRef) (type : WsEventType) : Js unit :=
  match ls with
  | [] => ret tt
  | l :: rest =>
      when (same_listener ws type l) (listener (snd l)) ;;
      call_listeners rest ws type
  end.

Definition dispatchEvent (ws : WebSocketRef) (type : WsEventType) : Js unit :=
  ls <- read listeners ;;
  call_listeners ls ws type.

Section Relay.

Context `{Platform}.

(** [typeof data === 'string' ? data : new TextDecoder().decode(data)] *)
Definition messageStr (data : Payload) : string :=
  match data with
  | Text s => s
  | Binary bytes => TextDecoder_decode bytes
  end.

(** [handleProxyMessage(data)]: the whole body is inside [try]. *)
Definition handleProxyMessage (data : Payload) : Js unit :=
  try_catch
    (message <- match JSON_parse (messageStr data) with
                | Some v => ret v
                | None => throw SyntaxError
                end ;;
     current <- field connectedTransport ;;
     match current with
     | Some t =>
         rejected <- Transport_send t message ;;
         register (afterForwardSend rejected)
     | None => ret tt
     end)
    (fun _ => console err ErrorParsingProxyMessage).

(** Transport [t] calls the [onmessage] it was given. *)
Definition call_onmessage (t : TransportRef) (message : JSON.value) : Js unit :=
  handler <- read (fun w => onmessage w !! t) ;;
  match handler with
  | Some forwardStringified => forwardToProxy (Text (JSON_stringify message))
  | None => ret tt
  end.

(** ** Everything that can happen to a relay *)

Inductive Action : Type :=
| Call_setProxyConnection (webSocket : option WebSocketRef)
| Call_isConnected
| Call_debugConnectionState
| Call_handleProxyMessage (data : Payload)
| Call_connect (transport : TransportRef)
| Call_forwardToProxy (data : Payload)
| WsEvent (ws : WebSocketRef) (type : WsEventType)
| TransportMessage (t : TransportRef) (message : JSON.value)
| Settle (i : nat)
| HostChange (h : Host).

(** A caller that ignores how a call completes. *)
Definition discard {A} (m : Js A) : Js unit :=
  fun w => (Returned tt, snd (m w)).

Definition perform (a : Action) : Js unit :=
  match a with
  | Call_setProxyConnection webSocket => setProxyConnection webSocket
  | Call_isConnected => discard isConnected
  | Call_debugConnectionState => debugConnectionState
  | Call_handleProxyMessage data => handleProxyMessage data
  | Call_connect transport => discard (connect transport)
  | Call_forwardToProxy data => forwardToProxy data
  | WsEvent ws type => dispatchEvent ws type
  | TransportMessage t message => call_onmessage t message
  | Settle i => settle i
  | HostChange h => modify (with_host h)
  end.

Definition step (a : Action) (w : World) : World := snd (perform a w).

Definition run (actions : list Action) (w : World) : World :=
  fold_left (fun w a => step a w) actions w.

End Relay.

(** ** Reading a trace *)

Definition is_console (e : Event) : bool :=
  match e with
  | Console _ _ => true
  | _ => false
  end.

(** The [send] calls made on WebSockets, oldest first. *)
Definition ws_sends (tr : list Event) : list (WebSocketRef * Payload) :=
  flat_map (fun e => match e with WsSend ws d => [(ws, d)] | _ => [] end) tr.

(** The [send] calls made on transports. *)
Definition transport_sends (tr : list Event) : list (TransportRef * JSON.value) :=
  flat_map (fun e => match e with TransportSend t m => [(t, m)] | _ => [] end) tr.

(** The [close] calls made on transports. *)
Definition transport_closes (tr : list Event) : list TransportRef :=
  flat_map (fun e => match e with TransportClose t => [t] | _ => [] end) tr.

(** The messages sent on transport [t]. *)
Definition sends_on (t : TransportRef) (tr : list Event) : list JSON.value :=
  flat_map (fun e => match e with
                     | TransportSend t' m => if Nat.eqb t' t then [m] else []
                     | _ => []
                     end) tr.


(** How often [close] was called on transport [t]. *)
Definition closes_on (t : TransportRef) (tr : list Event) : nat :=
  List.length (flat_map (fun e => match e with
                                  | TransportClose t' => if Nat.eqb t' t then [t'] else []
                                  | _ => []
                                  end) tr).

(** ** The specification of [isConnected]

    The words of the specification, as functions of the state the method
    is called in; [isConnected_eq] below relates the method to them. *)

(** The readiness the handle reports, if there is a handle. *)
Definition observed_readyState (w : World) : option Z :=
  readyState (host w) <$> proxyConnection (this w).

(** [handle != null AND declaredConnected AND handle.readiness != CLOSED] *)
Definition liveness (w : World) : bool :=
  bool_decide (proxyConnection (this w) <> None)
  && isProxyConnected (this w)
  && negb (readyState_is (observed_readyState w) 3).

(** The handle is non-null, declared connected, and its readiness reports
    CLOSED or CLOSING. *)
Definition stale (w : World) : bool :=
  bool_decide (proxyConnection (this w) <> None)
  && isProxyConnected (this w)
  && (readyState_is (observed_readyState w) 3
      || readyState_is (observed_readyState w) 2).

(** The actions that are calls of [setProxyConnection]. *)
Definition is_setProxyConnection (a : Action) : bool :=
  match a with
  | Call_setProxyConnection _ => true
  | _ => false
  end.

(** Modelled from the spec: the Envelope shape [{jsonrpc: "2.0", id?,
    method?, params?, result?, error?}]; the [JSONRPCMessage] type of the MCP
    SDK that the source casts to is not among the sources.  An envelope is
    an object whose [jsonrpc] member is the string 2.0 and whose other
    members are among the five optional ones. *)
Definition is_Envelope (v : JSON.value) : bool :=
  match v with
  | JSON.Object members =>
      match JSON.member "jsonrpc" members with
      | Some (JSON.Str version) => String.eqb version "2.0"
      | _ => false
      end
      && forallb (fun kv => existsb (String.eqb (fst kv))
                              ["jsonrpc"; "id"; "method"; "params"; "result"; "error"])
           members
  | _ => false
  end.

Definition parses_as_Envelope `{Platform} (data : Payload) : bool :=
  match JSON_parse (messageStr data) with
  | Some v => is_Envelope v
  | None => false
  end.

(** ** Sample worlds *)

(** A host on which every WebSocket is OPEN and every call succeeds. *)
Definition quiet_host : Host :=
  {| readyState := fun _ => 1;
     ws_send_throws := fun _ _ => false;
     transport_send := fun _ _ => Resolves;
     transport_close := fun _ => Resolves;
     Date_now := 1000 |}.

(** The same host once WebSocket 7 reports CLOSED. *)
Definition host_ws7_closed : Host :=
  {| readyState := fun ws => if Nat.eqb ws 7 then 3 else 1;
     ws_send_throws := fun _ _ => false;
     transport_send := fun _ _ => Resolves;
     transport_close := fun _ => Resolves;
     Date_now := 2000 |}.

(** A host on which every call fails: WebSocket sends throw, transport
    sends and closes reject. *)
Definition failing_host : Host :=
  {| readyState := fun _ => 1;
     ws_send_throws := fun _ _ => true;
     transport_send := fun _ _ => Rejects;
     transport_close := fun _ => Rejects;
     Date_now := 1000 |}.


(** A relay just constructed. *)
Definition fresh : World :=
  {| this := new_McpServerProxy; host := quiet_host; listeners := [];
     onmessage := ∅; reactions := []; trace := [] |}.

(** Transport 1 is current (after [connect(1)] on a fresh relay). *)
Definition world_A : World := step (Call_connect 1%nat) fresh.

(** WebSocket 7 attached and transport 1 current. *)
Definition world_live : World :=
  run [Call_setProxyConnection (Some 7%nat); Call_connect 1%nat] fresh.

(** The same, but the WebSocket went CLOSED without its close event
    reaching the relay. *)
Definition world_hibernated : World :=
  step (HostChange host_ws7_closed) world_live.

(** The same as [world_live] on the failing host. *)
Definition world_failing : World :=
  step (HostChange failing_host) world_live.

(** The console output of one call of [isConnected]. *)
Definition isConnected_logs (w : World) : list Event :=
  (if stale w then [Console log UpdatingConnectionState] else [])
  ++ (if negb (liveness w) || negb (readyState_is (observed_readyState w) 1)
      then [Console log
              (ConnectionCheck (bool_decide (proxyConnection (this w) <> None))
                 (isProxyConnected (this w)) (observed_readyState w)
                 (readyStateText (observed_readyState w))
                 (lastConnectionTime (this w))
                 (Date_now (host w) - lastConnectionTime (this w))
                 (liveness w))]
      else []).

(** The state one call of [isConnected] leaves behind. *)
Definition after_isConnected (w : World) : World :=
  {| this := if stale w then set_isProxyConnected false (this w) else this w;
     host := host w; listeners := listeners w; onmessage := onmessage w;
     reactions := reactions w; trace := trace w ++ isConnected_logs w |}.


(** ** Vocabulary for the properties beyond the claims *)

(** The listeners an action adds: [setProxyConnection] with a WebSocket
    adds a close and an error listener on it, nothing else adds any. *)
Definition added_listeners (a : Action) : list (WebSocketRef * WsEventType) :=
  match a with
  | Call_setProxyConnection (Some ws) => [(ws, close); (ws, error)]
  | _ => []
  end.

(** The actions that are calls of [connect]. *)
Definition is_connect (a : Action) : bool :=
  match a with
  | Call_connect _ => true
  | _ => false
  end.

(** The actions that can replace or clear the handle: calls of
    [setProxyConnection] and close events. *)
Definition touches_handle (a : Action) : bool :=
  match a with
  | Call_setProxyConnection _ => true
  | WsEvent _ close => true
  | _ => false
  end.

(** The flag is up only while a handle is held. *)
Definition flag_has_handle (w : World) : Prop :=
  isProxyConnected (this w) = true -> proxyConnection (this w) <> None.

(** The handle held has its close and its error listener registered. *)
Definition handle_is_watched (w : World) : Prop :=
  forall ws, proxyConnection (this w) = Some ws ->
             In (ws, close) (listeners w) /\ In (ws, error) (listeners w).

(** A host whose transports all return a promise from [send]. *)
Definition sends_return_promises (h : Host) : Prop :=
  forall t m, transport_send h t m <> ThrowsSync.

(** The transport that is current, as a list of at most one. *)
Definition current_as_list (w : World) : list TransportRef :=
  match connectedTransport (this w) with
  | Some t => [t]
  | None => []
  end.

(** The quiet host once every WebSocket reports CLOSING. *)
Definition host_closing : Host :=
  {| readyState := fun _ => 2;
     ws_send_throws := fun _ _ => false;
     transport_send := fun _ _ => Resolves;
     transport_close := fun _ => Resolves;
     Date_now := 2000 |}.

(** [world_live] with its WebSocket CLOSING and the flag still up. *)
Definition world_closing : World :=
  step (HostChange host_closing) world_live.

(** Transport 1 superseded by transport 2, the send of the notice not yet
    settled. *)
Definition world_takeover : World :=
  run [Call_connect 1%nat; Call_connect 2%nat] fresh.

(** * Facts *)

(** ** The reference parser on a few texts *)

Example parse_empty_object : JSON.parse "{}" = Some (JSON.Object []).
Proof. reflexivity. Qed.

Example parse_nested :
  JSON.parse " [1, {}, [true , null], -2.5e+3] "
  = Some (JSON.Array [JSON.Number "1"; JSON.Object [];
                      JSON.Array [JSON.Bool true; JSON.Null];
                      JSON.Number "-2.5e+3"]).
Proof. vm_compute. reflexivity. Qed.

Example parse_not_json : JSON.parse "not json" = None.
Proof. reflexivity. Qed.

Example parse_trailing_text : JSON.parse "{} x" = None.
Proof. reflexivity. Qed.

Example parse_leading_zero : JSON.parse "01" = None.
Proof. reflexivity. Qed.

Example stringify_then_parse :
  JSON.parse (JSON.stringify disconnectMessage) = Some disconnectMessage.
Proof. vm_compute. reflexivity. Qed.

(** ** Traces *)

Lemma ws_sends_app (a b : list Event) :
  ws_sends (a ++ b) = ws_sends a ++ ws_sends b.
Proof. apply flat_map_app. Qed.

Lemma transport_sends_app (a b : list Event) :
  transport_sends (a ++ b) = transport_sends a ++ transport_sends b.
Proof. apply flat_map_app. Qed.

Lemma transport_closes_app (a b : list Event) :
  transport_closes (a ++ b) = transport_closes a ++ transport_closes b.
Proof. apply flat_map_app. Qed.

Lemma console_no_ws_sends (logs : list Event) :
  forallb is_console logs = true -> ws_sends logs = [].
Proof.
  induction logs as [|e logs IH]; [reflexivity|].
  destruct e; simpl; try discriminate. exact IH.
Qed.

(** ** Running method bodies *)

Ltac js_unfold :=
  cbv [bind ret throw try_catch read modify when emit console assign field
       addEventListener set_onmessage register with_this with_host discard
       WebSocket_send Transport_send Transport_close].

(** Splits on an innermost condition or scrutinee the goal is stuck on. *)
Ltac js_split x :=
  lazymatch x with
  | context [if ?b then _ else _] => js_split b
  | context [match ?y with _ => _ end] => js_split y
  | _ => destruct x eqn:?
  end.

Ltac js_case :=
  match goal with
  | |- context [if ?b then _ else _] => js_split b
  | |- context [match ?x with _ => _ end] => js_split x
  end.

(** ** [isConnected] *)

Lemma isConnected_eq (w : World) :
  isConnected w = (Returned (liveness w), after_isConnected w).
Proof.
  destruct w as [[conn current marked last] h ls om rs tr].
  unfold isConnected, after_isConnected, isConnected_logs, liveness, stale,
    observed_readyState.
  js_unfold. simpl.
  destruct conn as [ws|], marked; simpl;
    rewrite ?andb_false_r; simpl; rewrite ?app_nil_r; try reflexivity.
  destruct (readyState h ws =? 3) eqn:E3, (readyState h ws =? 2) eqn:E2,
    (readyState h ws =? 1) eqn:E1; simpl;
    rewrite <- ?app_assoc, ?app_nil_r; try reflexivity; lia.
Qed.

Lemma isConnected_logs_console (w : World) :
  forallb is_console (isConnected_logs w) = true.
Proof. unfold isConnected_logs. repeat js_case; reflexivity. Qed.

Lemma liveness_false_of_flag (w : World) :
  isProxyConnected (this w) = false -> liveness w = false.
Proof. unfold liveness. intros ->. rewrite andb_false_r. reflexivity. Qed.

Lemma stale_false_of_flag (w : World) :
  isProxyConnected (this w) = false -> stale w = false.
Proof. unfold stale. intros ->. rewrite andb_false_r. reflexivity. Qed.

Lemma after_isConnected_flag_false (w : World) :
  isProxyConnected (this w) = false ->
  isProxyConnected (this (after_isConnected w)) = false.
Proof.
  intros Hf. simpl. rewrite (stale_false_of_flag w Hf). exact Hf.
Qed.

Lemma after_isConnected_proxyConnection (w : World) :
  proxyConnection (this (after_isConnected w)) = proxyConnection (this w).
Proof. simpl. destruct (stale w); reflexivity. Qed.

Lemma after_isConnected_connectedTransport (w : World) :
  connectedTransport (this (after_isConnected w)) = connectedTransport (this w).
Proof. simpl. destruct (stale w); reflexivity. Qed.

Lemma after_isConnected_ws_sends (w : World) :
  ws_sends (trace (after_isConnected w)) = ws_sends (trace w).
Proof.
  simpl. rewrite ws_sends_app, (console_no_ws_sends _ (isConnected_logs_console w)).
  apply app_nil_r.
Qed.

(** ** Frame properties of the methods *)

Ltac break_world w :=
  let conn := fresh "conn" in
  let current := fresh "current" in
  let marked := fresh "marked" in
  let last := fresh "last" in
  destruct w as [[conn current marked last] ? ? ? ? ?].

Ltac crush_trace :=
  rewrite ?ws_sends_app, ?transport_sends_app, ?transport_closes_app;
  simpl; rewrite ?app_nil_r.

Lemma forwardToProxy_returns (data : Payload) (w : World) :
  fst (forwardToProxy data w) = Returned tt.
Proof.
  break_world w. unfold forwardToProxy, isConnected. js_unfold. simpl.
  repeat js_case; reflexivity.
Qed.

Lemma forwardToProxy_frame (data : Payload) (w : World) :
  let w' := snd (forwardToProxy data w) in
  host w' = host w /\ listeners w' = listeners w /\ onmessage w' = onmessage w
  /\ reactions w' = reactions w
  /\ proxyConnection (this w') = proxyConnection (this w)
  /\ connectedTransport (this w') = connectedTransport (this w)
  /\ lastConnectionTime (this w') = lastConnectionTime (this w)
  /\ transport_sends (trace w') = transport_sends (trace w)
  /\ transport_closes (trace w') = transport_closes (trace w).
Proof.
  break_world w. unfold forwardToProxy, isConnected. js_unfold. simpl.
  repeat js_case; simpl; crush_trace; repeat split; reflexivity.
Qed.

Lemma forwardToProxy_disconnected (data : Payload) (w : World) :
  liveness w = false ->
  exists logs,
    forallb is_console logs = true /\
    forwardToProxy data w =
      (Returned tt,
       {| this := this (after_isConnected w); host := host w;
          listeners := listeners w; onmessage := onmessage w;
          reactions := reactions w;
          trace := trace w ++ logs ++ [Console warn (CannotForward (preview data))] |}).
Proof.
  intros Hlive.
  exists ([Console log AttemptingForward] ++ isConnected_logs w
          ++ [Console log (ConnectionStatus false)]).
  split.
  - simpl. rewrite forallb_app, isConnected_logs_console. reflexivity.
  - unfold forwardToProxy.
    cbv [bind console emit modify]. rewrite isConnected_eq.
    replace (liveness _) with false by (symmetry; exact Hlive).
    cbv [field read]. simpl.
    unfold stale, isConnected_logs, liveness, observed_readyState in *. simpl.
    rewrite <- ?app_assoc. simpl. rewrite <- ?app_assoc. reflexivity.
Qed.

Lemma forwardToProxy_connected (data : Payload) (w : World) (ws : WebSocketRef) :
  liveness w = true ->
  proxyConnection (this w) = Some ws ->
  exists logs,
    forallb is_console logs = true /\
    forwardToProxy data w =
      (Returned tt,
       {| this := if ws_send_throws (host w) ws data
                  then set_isProxyConnected false (this (after_isConnected w))
                  else this (after_isConnected w);
          host := host w; listeners := listeners w; onmessage := onmessage w;
          reactions := reactions w;
          trace := trace w ++ logs ++ [WsSend ws data]
                   ++ (if ws_send_throws (host w) ws data
                       then [Console err ErrorSendingToProxy] else []) |}).
Proof.
  intros Hlive Hconn.
  exists ([Console log AttemptingForward] ++ isConnected_logs w
          ++ [Console log (ConnectionStatus true); Console log SendingToWebSocket]).
  split.
  - simpl. rewrite forallb_app, isConnected_logs_console. reflexivity.
  - break_world w. unfold liveness, observed_readyState in Hlive.
    simpl in *. subst conn. destruct marked; [|discriminate Hlive].
    simpl in Hlive.
    unfold forwardToProxy, isConnected, after_isConnected, isConnected_logs,
      stale, liveness, observed_readyState.
    js_unfold. simpl.
    destruct (readyState host0 ws =? 3); [discriminate Hlive|].
    repeat (js_case; simpl);
      rewrite <- ?app_assoc; simpl; rewrite <- ?app_assoc;
      try reflexivity; try discriminate.
Qed.

Section Facts.

Context `{Platform}.

Lemma handleProxyMessage_this (data : Payload) (w : World) :
fst (handleProxyMessage data w) = Returned tt
/\ this (snd (handleProxyMessage data w)) = this w
/\ host (snd (handleProxyMessage data w)) = host w
/\ listeners (snd (handleProxyMessage data w)) = listeners w
/\ onmessage (snd (handleProxyMessage data w)) = onmessage w
/\ ws_sends (trace (snd (handleProxyMessage data w))) = ws_sends (trace w)
/\ transport_closes (trace (snd (handleProxyMessage data w)))
   = transport_closes (trace w).
Proof.
break_world w. unfold handleProxyMessage. js_unfold. simpl.
repeat (js_case; simpl); crush_trace; repeat split; reflexivity.
Qed.

Lemma react_this (r : Reaction) (w : World) :
this (snd (react r w)) = this w
/\ host (snd (react r w)) = host w
/\ listeners (snd (react r w)) = listeners w
/\ onmessage (snd (react r w)) = onmessage w
/\ reactions (snd (react r w)) = reactions w
/\ ws_sends (trace (snd (react r w))) = ws_sends (trace w)
/\ transport_sends (trace (snd (react r w))) = transport_sends (trace w).
Proof.
break_world w. unfold react. js_unfold. simpl.
repeat (js_case; simpl); crush_trace; repeat split; reflexivity.
Qed.

Lemma settle_this (i : nat) (w : World) :
fst (settle i w) = Returned tt
/\ this (snd (settle i w)) = this w
/\ host (snd (settle i w)) = host w
/\ listeners (snd (settle i w)) = listeners w
/\ onmessage (snd (settle i w)) = onmessage w
/\ ws_sends (trace (snd (settle i w))) = ws_sends (trace w)
/\ transport_sends (trace (snd (settle i w))) = transport_sends (trace w).
Proof.
unfold settle. cbv [bind read modify try_catch]. simpl.
destruct (reactions w !! i) as [r|] eqn:Hr; simpl; [|repeat split; reflexivity].
set (w1 := {| this := this w; host := host w; listeners := listeners w;
              onmessage := onmessage w; reactions := delete i (reactions w);
              trace := trace w |}).
destruct (react_this r w1) as (Ht & Hh & Hl & Ho & _ & Hs & Hts).
destruct (react r w1) as [[[]|e] w2]; simpl in *;
  cbv [emit modify]; simpl; crush_trace; repeat split; assumption.
Qed.

Lemma connect_frame (transport : TransportRef) (w : World) :
let w' := snd (connect transport w) in
proxyConnection (this w') = proxyConnection (this w)
/\ isProxyConnected (this w') = isProxyConnected (this w)
/\ lastConnectionTime (this w') = lastConnectionTime (this w)
/\ host w' = host w /\ listeners w' = listeners w
/\ ws_sends (trace w') = ws_sends (trace w)
/\ transport_closes (trace w') = transport_closes (trace w)
/\ (connectedTransport (this w) <> None -> connectedTransport (this w') <> None).
Proof.
break_world w. unfold connect. js_unfold. simpl.
repeat (js_case; simpl); crush_trace; repeat split; congruence.
Qed.

(** A listener only ever clears the flag and the handle. *)
Lemma call_listeners_frame (ls : list (WebSocketRef * WsEventType))
  (ws : WebSocketRef) (type : WsEventType) (w : World) :
let w' := snd (call_listeners ls ws type w) in
fst (call_listeners ls ws type w) = Returned tt
/\ host w' = host w /\ listeners w' = listeners w
/\ onmessage w' = onmessage w /\ reactions w' = reactions w
/\ connectedTransport (this w') = connectedTransport (this w)
/\ lastConnectionTime (this w') = lastConnectionTime (this w)
/\ ws_sends (trace w') = ws_sends (trace w)
/\ transport_sends (trace w') = transport_sends (trace w)
/\ transport_closes (trace w') = transport_closes (trace w)
/\ (isProxyConnected (this w) = false -> isProxyConnected (this w') = false)
/\ (proxyConnection (this w) = None -> proxyConnection (this w') = None).
Proof.
revert w. induction ls as [|l ls IH]; intros w; simpl.
- repeat split; auto.
- cbv [bind when]. destruct (same_listener ws type l) eqn:Hsame.
  + destruct l as [ws' [|]]; simpl; js_unfold; simpl;
      match goal with
      | |- context [call_listeners ls ws type ?w1] =>
          destruct (IH w1) as (H0 & H1 & H2 & H3 & H4 & H5 & H6 & H7 & H8 & H9 & H10 & H11);
          destruct (call_listeners ls ws type w1) as [c w2]; simpl in *
      end;
      rewrite ?H1, ?H2, ?H3, ?H4, ?H5, ?H6, ?H7, ?H8, ?H9;
      crush_trace; repeat split; auto.
  + cbv [ret]. apply IH.
Qed.

(** After a close event on a WebSocket that has a close listener, the
  handle is gone and the flag is down, whatever they were. *)
Lemma call_listeners_close (ls : list (WebSocketRef * WsEventType))
  (ws : WebSocketRef) (w : World) :
In (ws, close) ls ->
let w' := snd (call_listeners ls ws close w) in
proxyConnection (this w') = None /\ isProxyConnected (this w') = false.
Proof.
revert w. induction ls as [|l ls IH]; intros w Hin; simpl in *; [contradiction|].
destruct Hin as [-> | Hin].
- unfold same_listener. simpl. rewrite Nat.eqb_refl. simpl.
  js_unfold. simpl.
  match goal with
  | |- context [call_listeners ls ws close ?w1] =>
      destruct (call_listeners_frame ls ws close w1)
        as (_ & _ & _ & _ & _ & _ & _ & _ & _ & _ & Hflag & Hconn);
      destruct (call_listeners ls ws close w1) as [c w2]; simpl in *
  end.
  split; [apply Hconn | apply Hflag]; reflexivity.
- cbv [bind when]. destruct (same_listener ws close l).
  + destruct l as [ws' [|]]; simpl; js_unfold; simpl;
      match goal with
      | |- context [call_listeners ls ws close ?w1] =>
          specialize (IH w1 Hin);
          destruct (call_listeners ls ws close w1) as [c w2]; simpl in *
      end; exact IH.
  + cbv [ret]. apply IH, Hin.
Qed.

Lemma debugConnectionState_frame (w : World) :
let w' := snd (debugConnectionState w) in
host w' = host w /\ listeners w' = listeners w
/\ connectedTransport (this w') = connectedTransport (this w)
/\ ws_sends (trace w') = ws_sends (trace w)
/\ (isProxyConnected (this w) = false -> isProxyConnected (this w') = false).
Proof.
break_world w. unfold debugConnectionState, isConnected. js_unfold. simpl.
repeat (js_case; simpl); crush_trace; repeat split; auto.
Qed.

Lemma setProxyConnection_frame (webSocket : option WebSocketRef) (w : World) :
let w' := snd (setProxyConnection webSocket w) in
host w' = host w
/\ connectedTransport (this w') = connectedTransport (this w)
/\ (forall l, In l (listeners w) -> In l (listeners w')).
Proof.
break_world w. unfold setProxyConnection. js_unfold.
destruct webSocket; simpl; repeat split; auto.
intros l Hl. rewrite <- app_assoc. apply in_or_app. left. exact Hl.
Qed.

Lemma call_onmessage_frame (t : TransportRef) (message : JSON.value) (w : World) :
let w' := snd (call_onmessage t message w) in
host w' = host w /\ listeners w' = listeners w
/\ connectedTransport (this w') = connectedTransport (this w)
/\ (isProxyConnected (this w) = false ->
    isProxyConnected (this w') = false
    /\ ws_sends (trace w') = ws_sends (trace w)).
Proof.
unfold call_onmessage. cbv [bind read].
destruct (onmessage w !! t) as [[]|]; simpl.
- destruct (forwardToProxy_frame (Text (JSON_stringify message)) w)
    as (Hh & Hl & _ & _ & _ & Hc & _).
  split; [exact Hh|]. split; [exact Hl|]. split; [exact Hc|].
  intros Hflag.
  destruct (forwardToProxy_disconnected (Text (JSON_stringify message)) w
              (liveness_false_of_flag w Hflag)) as (logs & Hlogs & ->).
  simpl. rewrite (stale_false_of_flag w Hflag).
  rewrite !ws_sends_app, (console_no_ws_sends _ Hlogs). simpl.
  rewrite app_nil_r. auto.
- repeat split; auto.
Qed.

(** Only [setProxyConnection] raises the flag, and while it is down no
  method sends on a WebSocket. *)
Lemma step_while_disconnected (a : Action) (w : World) :
is_setProxyConnection a = false ->
isProxyConnected (this w) = false ->
isProxyConnected (this (step a w)) = false
/\ ws_sends (trace (step a w)) = ws_sends (trace w).
Proof.
intros Ha Hflag. unfold step. destruct a; simpl in *; try discriminate.
- cbv [discard]. simpl. rewrite isConnected_eq. simpl snd.
  split; [apply after_isConnected_flag_false, Hflag
         | apply after_isConnected_ws_sends].
- destruct (debugConnectionState_frame w) as (_ & _ & _ & Hs & Hf). auto.
- destruct (handleProxyMessage_this data w) as (_ & Ht & _ & _ & _ & Hs & _).
  rewrite Ht. auto.
- cbv [discard]. simpl.
  destruct (connect_frame transport w) as (_ & Hf & _ & _ & _ & Hs & _).
  simpl in Hf. rewrite Hf. auto.
- destruct (forwardToProxy_disconnected data w (liveness_false_of_flag w Hflag))
    as (logs & Hlogs & ->).
  simpl. rewrite (stale_false_of_flag w Hflag).
  rewrite !ws_sends_app, (console_no_ws_sends _ Hlogs). simpl.
  rewrite app_nil_r. auto.
- unfold dispatchEvent. cbv [bind read].
  destruct (call_listeners_frame (listeners w) ws type w)
    as (_ & _ & _ & _ & _ & _ & _ & Hs & _ & _ & Hf & _).
  auto.
- destruct (call_onmessage_frame t message w) as (_ & _ & _ & Hf). auto.
- destruct (settle_this i w) as (_ & Ht & _ & _ & _ & Hs & _).
  rewrite Ht. auto.
- cbv [modify with_host]. simpl. auto.
Qed.

Lemma run_while_disconnected (actions : list Action) (w : World) :
forallb (fun a => negb (is_setProxyConnection a)) actions = true ->
isProxyConnected (this w) = false ->
isProxyConnected (this (run actions w)) = false
/\ ws_sends (trace (run actions w)) = ws_sends (trace w).
Proof.
revert w. induction actions as [|a actions IH]; intros w Hall Hflag; simpl.
- auto.
- simpl in Hall. apply andb_true_iff in Hall as [Ha Hall].
  apply negb_true_iff in Ha.
  destruct (step_while_disconnected a w Ha Hflag) as [Hf Hs].
  destruct (IH (step a w) Hall Hf) as [Hf' Hs'].
  split; [exact Hf' | rewrite Hs'; exact Hs].
Qed.

(** The relay never removes a listener. *)
Lemma step_keeps_listeners (a : Action) (w : World) (l : WebSocketRef * WsEventType) :
In l (listeners w) -> In l (listeners (step a w)).
Proof.
intros Hl. unfold step. destruct a; simpl.
- apply setProxyConnection_frame, Hl.
- cbv [discard]. simpl. rewrite isConnected_eq. exact Hl.
- destruct (debugConnectionState_frame w) as (_ & -> & _). exact Hl.
- destruct (handleProxyMessage_this data w) as (_ & _ & _ & -> & _). exact Hl.
- cbv [discard]. simpl.
  destruct (connect_frame transport w) as (_ & _ & _ & _ & Hls & _).
  simpl in Hls. rewrite Hls. exact Hl.
- destruct (forwardToProxy_frame data w) as (_ & -> & _). exact Hl.
- unfold dispatchEvent. cbv [bind read].
  destruct (call_listeners_frame (listeners w) ws type w) as (_ & _ & -> & _).
  exact Hl.
- destruct (call_onmessage_frame t message w) as (_ & -> & _). exact Hl.
- destruct (settle_this i w) as (_ & _ & _ & -> & _). exact Hl.
- exact Hl.
Qed.

Lemma run_keeps_listeners (actions : list Action) (w : World)
  (l : WebSocketRef * WsEventType) :
In l (listeners w) -> In l (listeners (run actions w)).
Proof.
revert w. induction actions as [|a actions IH]; intros w Hl; simpl; [exact Hl|].
apply IH, step_keeps_listeners, Hl.
Qed.



(** ** The Connection State Tracker *)

(** C2: in every state [isConnected] returns, without throwing, exactly
  [handle != null && declaredConnected && readiness != CLOSED] computed
  on the state it was called in; when the handle is non-null, the flag is
  up and the readiness is CLOSED or CLOSING it leaves the flag down; and
  nothing else changes: the other three fields, the host, the listeners,
  the handlers and the pending reactions are as before, and the trace
  only gains console output. *)
Theorem C2_isConnected_liveness_and_downgrade (w : World) :
exists w',
  isConnected w = (Returned (liveness w), w')
  /\ (proxyConnection (this w) <> None ->
      isProxyConnected (this w) = true ->
      (readyState_is (observed_readyState w) 3
       || readyState_is (observed_readyState w) 2) = true ->
      isProxyConnected (this w') = false)
  /\ this w' = (if stale w then set_isProxyConnected false (this w) else this w)
  /\ proxyConnection (this w') = proxyConnection (this w)
  /\ connectedTransport (this w') = connectedTransport (this w)
  /\ lastConnectionTime (this w') = lastConnectionTime (this w)
  /\ host w' = host w /\ listeners w' = listeners w
  /\ onmessage w' = onmessage w /\ reactions w' = reactions w
  /\ exists logs, trace w' = trace w ++ logs /\ forallb is_console logs = true.
Proof.
exists (after_isConnected w). split; [apply isConnected_eq|].
split.
{ intros Hconn Hflag Hrs. simpl. unfold stale.
  rewrite Hflag, Hrs, bool_decide_eq_true_2 by exact Hconn. reflexivity. }
split; [reflexivity|].
split; [apply after_isConnected_proxyConnection|].
split; [apply after_isConnected_connectedTransport|].
split; [simpl; destruct (stale w); reflexivity|].
repeat (split; [reflexivity|]).
exists (isConnected_logs w). split; [reflexivity | apply isConnected_logs_console].
Qed.

(** C4: when the handle reports CLOSED while the flag is still up, the
  next [isConnected] returns false and leaves the flag down; and after
  any further activity that does not call [setProxyConnection] (further
  [isConnected] calls included) [isConnected] still returns false and
  the flag is still down. *)
Theorem C4_closed_handle_is_corrected_for_good
  (w : World) (h : WebSocketRef) (later : list Action) :
proxyConnection (this w) = Some h ->
readyState (host w) h = 3 ->
isProxyConnected (this w) = true ->
forallb (fun a => negb (is_setProxyConnection a)) later = true ->
let w1 := snd (isConnected w) in
let w2 := run later w1 in
fst (isConnected w) = Returned false
/\ isProxyConnected (this w1) = false
/\ fst (isConnected w2) = Returned false
/\ isProxyConnected (this (snd (isConnected w2))) = false.
Proof.
intros Hconn Hrs Hflag Hlater w1 w2.
assert (Hlive : liveness w = false).
{ unfold liveness, observed_readyState. rewrite Hconn. simpl. rewrite Hrs.
  simpl. apply andb_false_r. }
assert (Hstale : stale w = true).
{ unfold stale, observed_readyState. rewrite Hconn, Hflag. simpl.
  rewrite Hrs. reflexivity. }
assert (E1 : w1 = after_isConnected w).
{ unfold w1. rewrite isConnected_eq. reflexivity. }
assert (H1 : isProxyConnected (this w1) = false).
{ rewrite E1. simpl. rewrite Hstale. reflexivity. }
destruct (run_while_disconnected later w1 Hlater H1) as [H2 _].
fold w2 in H2.
split. { rewrite isConnected_eq. simpl. rewrite Hlive. reflexivity. }
split. { exact H1. }
split.
{ rewrite isConnected_eq. simpl.
  rewrite (liveness_false_of_flag w2 H2). reflexivity. }
rewrite isConnected_eq. simpl snd. apply after_isConnected_flag_false, H2.
Qed.

(** [setProxyConnection(null)] on any state. *)
Lemma setProxyConnection_null (w : World) :
setProxyConnection None w =
  (Returned tt,
   {| this := set_isProxyConnected false (set_proxyConnection None (this w));
      host := host w; listeners := listeners w; onmessage := onmessage w;
      reactions := reactions w;
      trace := trace w ++ [Console log SettingConnectionNull] |}).
Proof. reflexivity. Qed.

(** [setProxyConnection(ws)] on any state. *)
Lemma setProxyConnection_some (ws : WebSocketRef) (w : World) :
setProxyConnection (Some ws) w =
  (Returned tt,
   {| this := {| proxyConnection := Some ws;
                 connectedTransport := connectedTransport (this w);
                 isProxyConnected := true;
                 lastConnectionTime := Date_now (host w) |};
      host := host w;
      listeners := (listeners w ++ [(ws, close)]) ++ [(ws, error)];
      onmessage := onmessage w; reactions := reactions w;
      trace := trace w ++ [Console log (SettingConnection (readyState (host w) ws))] |}).
Proof. reflexivity. Qed.

(** C5: after any sequence of [setProxyConnection] calls, a
  [setProxyConnection(null)] leaves the handle null and the flag down, and
  [isConnected] returns false; a [forwardToProxy] that follows returns
  normally, makes no send on any WebSocket, and [isConnected] is false
  afterwards too. *)
Theorem C5_detach_then_forward
  (w0 : World) (handles : list (option WebSocketRef)) (payload : Payload) :
let w := run (map Call_setProxyConnection handles) w0 in
let w1 := snd (setProxyConnection None w) in
let w2 := snd (forwardToProxy payload w1) in
fst (setProxyConnection None w) = Returned tt
/\ proxyConnection (this w1) = None
/\ isProxyConnected (this w1) = false
/\ fst (isConnected w1) = Returned false
/\ fst (forwardToProxy payload w1) = Returned tt
/\ ws_sends (trace w2) = ws_sends (trace w)
/\ fst (isConnected w2) = Returned false.
Proof.
intros w w1 w2.
assert (H1 : isProxyConnected (this w1) = false) by reflexivity.
destruct (step_while_disconnected (Call_forwardToProxy payload) w1 eq_refl H1)
  as [H2 Hs].
change (step (Call_forwardToProxy payload) w1) with w2 in H2, Hs.
split; [reflexivity|].
split; [reflexivity|].
split; [exact H1|].
split.
{ rewrite isConnected_eq. simpl fst.
  rewrite (liveness_false_of_flag w1 H1). reflexivity. }
split; [apply forwardToProxy_returns|].
split.
{ rewrite Hs. unfold w1. rewrite setProxyConnection_null. simpl.
  rewrite ws_sends_app. simpl. apply app_nil_r. }
rewrite isConnected_eq. simpl fst.
rewrite (liveness_false_of_flag w2 H2). reflexivity.
Qed.

(** ** The Message Router, towards the remote side *)

(** C6: when [forwardToProxy] reaches the WebSocket and its [send] throws,
  the call still returns normally and the flag is down; the payload was
  attempted exactly once and nothing was queued for it; and as long as
  [setProxyConnection] is not called again no further send is attempted
  on any WebSocket, whatever is called. *)
Theorem C6_failed_send_downgrades
  (w : World) (ws : WebSocketRef) (data : Payload) (later : list Action) :
fst (isConnected w) = Returned true ->
proxyConnection (this w) = Some ws ->
ws_send_throws (host w) ws data = true ->
forallb (fun a => negb (is_setProxyConnection a)) later = true ->
let w1 := snd (forwardToProxy data w) in
fst (forwardToProxy data w) = Returned tt
/\ isProxyConnected (this w1) = false
/\ ws_sends (trace w1) = ws_sends (trace w) ++ [(ws, data)]
/\ reactions w1 = reactions w
/\ (forall next, fst (forwardToProxy next w1) = Returned tt
                 /\ ws_sends (trace (snd (forwardToProxy next w1)))
                    = ws_sends (trace w1))
/\ ws_sends (trace (run later w1)) = ws_sends (trace w1).
Proof.
intros Hconnected Hconn Hthrows Hlater w1.
rewrite isConnected_eq in Hconnected. simpl in Hconnected.
assert (Hlive : liveness w = true) by congruence.
destruct (forwardToProxy_connected data w ws Hlive Hconn) as (logs & Hlogs & E).
rewrite Hthrows in E.
assert (H1 : isProxyConnected (this w1) = false).
{ subst w1. rewrite E. reflexivity. }
split; [rewrite E; reflexivity|].
split; [exact H1|].
split.
{ subst w1. rewrite E. simpl.
  rewrite !ws_sends_app, (console_no_ws_sends _ Hlogs). reflexivity. }
split; [subst w1; rewrite E; reflexivity|].
split.
- intros next. split; [apply forwardToProxy_returns|].
  apply (step_while_disconnected (Call_forwardToProxy next) w1 eq_refl H1).
- apply (run_while_disconnected later w1 Hlater H1).
Qed.

Lemma length_append (s1 s2 : string) :
String.length (s1 +:+ s2) = (String.length s1 + String.length s2)%nat.
Proof. induction s1 as [|c s1 IH]; simpl; [reflexivity | rewrite IH; reflexivity]. Qed.

Lemma length_substring_0 (n : nat) (s : string) :
(String.length (substring 0 n s) <= n)%nat.
Proof.
revert s. induction n as [|n IH]; intros [|c s]; simpl; try lia.
specialize (IH s). lia.
Qed.

Lemma preview_short (data : Payload) : (String.length (preview data) <= 103)%nat.
Proof.
destruct data as [s|bytes]; simpl.
- rewrite length_append. pose proof (length_substring_0 100 s). simpl. lia.
- lia.
Qed.

(** C7: when [isConnected] is false as [forwardToProxy] starts, the call
  returns normally, makes no send on any WebSocket, and ends with a
  warning that carries the preview of the payload: at most the first 100
  characters of a text followed by three dots, and a fixed placeholder for
  a binary payload; the payload is kept nowhere. *)
Theorem C7_forward_while_disconnected (w : World) (data : Payload) :
fst (isConnected w) = Returned false ->
let w1 := snd (forwardToProxy data w) in
fst (forwardToProxy data w) = Returned tt
/\ ws_sends (trace w1) = ws_sends (trace w)
/\ (exists logs, forallb is_console logs = true
      /\ trace w1 = trace w ++ logs ++ [Console warn (CannotForward (preview data))])
/\ preview data = match data with
                  | Text s => substring 0 100 s +:+ "..."
                  | Binary _ => "[Binary Data]"
                  end
/\ (String.length (preview data) <= 103)%nat
/\ this w1 = this (snd (isConnected w))
/\ reactions w1 = reactions w /\ listeners w1 = listeners w
/\ onmessage w1 = onmessage w /\ host w1 = host w.
Proof.
intros Hconnected w1.
rewrite isConnected_eq in Hconnected. simpl in Hconnected.
assert (Hlive : liveness w = false) by congruence.
destruct (forwardToProxy_disconnected data w Hlive) as (logs & Hlogs & E).
subst w1. rewrite E, isConnected_eq. simpl.
split; [reflexivity|].
split.
{ rewrite !ws_sends_app, (console_no_ws_sends _ Hlogs). simpl.
  apply app_nil_r. }
split; [exists logs; auto|].
split; [destruct data; reflexivity|].
split; [apply preview_short|].
repeat split.
Qed.

(** ** The Message Router, towards the local side *)

(** C8, as the code has it: a payload whose text [JSON.parse] rejects makes
    [handleProxyMessage] return normally with one error logged, no [send] on
    any transport, and nothing queued; a payload that parses while no
    transport is current leaves the world exactly as it was, without a log
    line; and a payload that parses while a transport is current is handed
    to that transport, once and as parsed, whatever its shape: no step of
    the method checks that the parsed value is an envelope. *)
Theorem C8_unparseable_or_no_transport (w : World) (data : Payload) :
  (JSON_parse (messageStr data) = None ->
   let w1 := snd (handleProxyMessage data w) in
   fst (handleProxyMessage data w) = Returned tt
   /\ trace w1 = trace w ++ [Console err ErrorParsingProxyMessage]
   /\ transport_sends (trace w1) = transport_sends (trace w)
   /\ this w1 = this w /\ reactions w1 = reactions w
   /\ host w1 = host w /\ listeners w1 = listeners w
   /\ onmessage w1 = onmessage w)
  /\ (forall v, JSON_parse (messageStr data) = Some v ->
      connectedTransport (this w) = None ->
      handleProxyMessage data w = (Returned tt, w))
  /\ (forall v t, JSON_parse (messageStr data) = Some v ->
      connectedTransport (this w) = Some t ->
      let w1 := snd (handleProxyMessage data w) in
      fst (handleProxyMessage data w) = Returned tt
      /\ transport_sends (trace w1) = transport_sends (trace w) ++ [(t, v)]
      /\ (exists rest, trace w1 = trace w ++ TransportSend t v :: rest
                       /\ forallb is_console rest = true)
      /\ this w1 = this w).
Proof.
  split; [|split].
  - intros Hparse. unfold handleProxyMessage. fold (messageStr data).
    rewrite Hparse. js_unfold. simpl.
    rewrite transport_sends_app. simpl. rewrite app_nil_r.
    repeat split.
  - intros v Hparse Hnone. unfold handleProxyMessage. fold (messageStr data).
    rewrite Hparse. js_unfold. simpl. rewrite Hnone. reflexivity.
  - intros v t Hparse Hcurrent. unfold handleProxyMessage.
    rewrite Hparse. js_unfold. simpl. rewrite Hcurrent. simpl.
    destruct (transport_send (host w) t v); simpl;
      rewrite ?transport_sends_app; simpl; rewrite ?app_nil_r;
      (split; [reflexivity|]); (split; [reflexivity|]);
      (split; [|reflexivity]).
    + exists []. rewrite <- ?app_assoc. split; reflexivity.
    + exists []. rewrite <- ?app_assoc. split; reflexivity.
    + exists [Console err ErrorParsingProxyMessage].
      rewrite <- ?app_assoc. split; reflexivity.
Qed.

(** Whatever [JSON.parse] returns goes to the current transport. *)
Lemma handleProxyMessage_delivers (w : World) (data : Payload)
    (v : JSON.value) (t : TransportRef) :
  JSON_parse (messageStr data) = Some v ->
  connectedTransport (this w) = Some t ->
  transport_sends (trace (snd (handleProxyMessage data w)))
  = transport_sends (trace w) ++ [(t, v)].
Proof.
  intros Hparse Hcurrent. unfold handleProxyMessage.
  rewrite Hparse. js_unfold. simpl. rewrite Hcurrent. simpl.
  destruct (transport_send (host w) t v); simpl;
    rewrite ?transport_sends_app; simpl; rewrite ?app_nil_r; reflexivity.
Qed.

(** C9: when a parsed message is handed to the current transport and that
  [send] fails, [handleProxyMessage] still returns normally and the four
  fields of the relay (handle, current transport, flag, timestamp) are as
  before.  A [send] that throws is logged by the method's own handler
  at once; one that rejects leaves a reaction which, whenever it runs,
  logs the error and changes no field either. *)
Theorem C9_delivery_failure_is_per_message
  (w : World) (data : Payload) (v : JSON.value) (t : TransportRef) :
JSON_parse (messageStr data) = Some v ->
connectedTransport (this w) = Some t ->
transport_send (host w) t v <> Resolves ->
let w1 := snd (handleProxyMessage data w) in
fst (handleProxyMessage data w) = Returned tt
/\ this w1 = this w
/\ transport_sends (trace w1) = transport_sends (trace w) ++ [(t, v)]
/\ match transport_send (host w) t v with
   | ThrowsSync =>
       trace w1 = trace w ++ [TransportSend t v;
                              Console err ErrorParsingProxyMessage]
       /\ reactions w1 = reactions w
   | Rejects =>
       trace w1 = trace w ++ [TransportSend t v]
       /\ reactions w1 = reactions w ++ [afterForwardSend true]
   | Resolves => False
   end
/\ (forall w', fst (react (afterForwardSend true) w') = Returned tt
               /\ this (snd (react (afterForwardSend true) w')) = this w'
               /\ trace (snd (react (afterForwardSend true) w'))
                  = trace w' ++ [Console err ErrorForwardingToTransport]).
Proof.
intros Hparse Hcurrent Hfails w1. subst w1.
unfold handleProxyMessage. fold (messageStr data).
rewrite Hparse. js_unfold. simpl. rewrite Hcurrent. simpl.
destruct (transport_send (host w) t v) eqn:Hsend; [contradiction| |]; simpl;
  rewrite ?transport_sends_app; simpl; rewrite <- ?app_assoc; simpl;
  repeat split.
Qed.

(** C10: after [setProxyConnection(h1)] and then [setProxyConnection(h2)],
  [h2] is the handle and the flag is up, and the close listener added
  on [h1] is still registered, as it is after anything that happens next.
  When [h1] then fires close, the handle becomes null and the flag goes
  down whatever handle was attached, so [isConnected] returns false: the
  connection to [h2], live until then when [h2] does not report CLOSED,
  is dropped. *)
Theorem C10_close_of_superseded_handle_disconnects
  (w : World) (h1 h2 : WebSocketRef) (between : list Action) :
let w2 := snd (setProxyConnection (Some h2)
                 (snd (setProxyConnection (Some h1) w))) in
let w3 := run between w2 in
let w4 := snd (dispatchEvent h1 close w3) in
proxyConnection (this w2) = Some h2
/\ isProxyConnected (this w2) = true
/\ (readyState (host w) h2 <> 3 -> fst (isConnected w2) = Returned true)
/\ In (h1, close) (listeners w2)
/\ In (h1, close) (listeners w3)
/\ proxyConnection (this w4) = None
/\ isProxyConnected (this w4) = false
/\ fst (isConnected w4) = Returned false.
Proof.
intros w2 w3 w4.
assert (Hin2 : In (h1, close) (listeners w2)).
{ unfold w2. rewrite !setProxyConnection_some. simpl.
  rewrite !in_app_iff. simpl. tauto. }
assert (Hin3 : In (h1, close) (listeners w3))
  by apply run_keeps_listeners, Hin2.
destruct (call_listeners_close (listeners w3) h1 w3 Hin3) as [Hc Hf].
change (snd (call_listeners (listeners w3) h1 close w3)) with w4 in Hc, Hf.
split; [unfold w2; rewrite !setProxyConnection_some; reflexivity|].
split; [unfold w2; rewrite !setProxyConnection_some; reflexivity|].
split.
{ intros Hrs. rewrite isConnected_eq. simpl fst. f_equal.
  unfold w2. rewrite !setProxyConnection_some.
  unfold liveness, observed_readyState. simpl.
  apply Z.eqb_neq in Hrs. rewrite Hrs. reflexivity. }
split; [exact Hin2|]. split; [exact Hin3|].
split; [exact Hc|]. split; [exact Hf|].
rewrite isConnected_eq. simpl fst.
rewrite (liveness_false_of_flag w4 Hf). reflexivity.
Qed.

(** ** The Session Manager *)

Lemma connect_over_current (w : World) (A B : TransportRef) :
connectedTransport (this w) = Some A ->
transport_send (host w) A disconnectMessage <> ThrowsSync ->
connect B w =
  (Returned tt,
   {| this := set_connectedTransport (Some B) (this w);
      host := host w; listeners := listeners w;
      onmessage := <[B := forwardStringified]> (onmessage w);
      reactions := reactions w
        ++ [afterDisconnectSend
              (rejects (transport_send (host w) A disconnectMessage))];
      trace := trace w ++ [Console log DisconnectingPreviousTransport;
                           TransportSend A disconnectMessage;
                           Console log SettingTransport] |}).
Proof.
intros Hcurrent Hsend. unfold connect. js_unfold. simpl.
rewrite Hcurrent. simpl.
destruct (transport_send (host w) A disconnectMessage) eqn:E;
  [| |contradiction]; simpl; rewrite <- ?app_assoc; reflexivity.
Qed.

(** A [send] that throws before returning a promise ends [connect] at once:
    the promise of [connect] rejects and the outgoing transport stays
    current. *)
Lemma connect_send_throws (w : World) (A B : TransportRef) :
  connectedTransport (this w) = Some A ->
  transport_send (host w) A disconnectMessage = ThrowsSync ->
  fst (connect B w) = Thrown (TransportError A)
  /\ this (snd (connect B w)) = this w
  /\ onmessage (snd (connect B w)) = onmessage w.
Proof.
  intros Hcurrent Hsend. unfold connect. js_unfold. simpl.
  rewrite Hcurrent. simpl. rewrite Hsend. simpl. repeat split.
Qed.

(** What the reaction on the send of the cancellation does, in any state
  that has a current transport. *)
Lemma react_afterDisconnectSend (rejected : bool) (w : World) (c : TransportRef) :
connectedTransport (this w) = Some c ->
let w' := snd (react (afterDisconnectSend rejected) w) in
this w' = this w
/\ transport_closes (trace w') = transport_closes (trace w) ++ [c]
/\ transport_sends (trace w') = transport_sends (trace w)
/\ (rejected = true -> In (Console err ErrorSendingDisconnect) (trace w')).
Proof.
intros Hc. unfold react. js_unfold. simpl.
destruct rejected; simpl; rewrite Hc; simpl;
  destruct (transport_close (host w) c); simpl;
  rewrite ?transport_closes_app, ?transport_sends_app; simpl;
  rewrite ?app_nil_r; repeat split; try discriminate;
  intros _; rewrite ?in_app_iff; simpl; auto.
Qed.

(** Where the close of a takeover lands when the reaction runs right after
    [connect(B)]: on [B], which the field holds by then, and not on [A]. *)
Lemma takeover_closes_the_incoming_transport (w : World) (A B : TransportRef) :
  connectedTransport (this w) = Some A ->
  transport_send (host w) A disconnectMessage <> ThrowsSync ->
  A <> B ->
  let rejected := rejects (transport_send (host w) A disconnectMessage) in
  let w1 := snd (connect B w) in
  let w2 := snd (react (afterDisconnectSend rejected) w1) in
  transport_closes (trace w2) = transport_closes (trace w) ++ [B]
  /\ closes_on A (trace w2) = closes_on A (trace w).
Proof.
  intros Hcurrent Hsend Hne rejected w1 w2.
  pose proof (connect_over_current w A B Hcurrent Hsend) as E.
  assert (E1 : w1 = snd (connect B w)) by reflexivity.
  rewrite E in E1. simpl in E1.
  assert (Hba : Nat.eqb B A = false) by (apply Nat.eqb_neq; congruence).
  unfold w2. clearbody w1. subst w1.
  unfold react, closes_on. js_unfold. simpl.
  destruct rejected; simpl; destruct (transport_close (host w) B); simpl;
    rewrite ?transport_closes_app, ?flat_map_app, ?length_app; simpl;
    rewrite ?Hba, ?app_nil_r; simpl; (split; [reflexivity | lia]).
Qed.



(** C3, as the code has it: [connect(T)] with [T] already current takes
  the same retire path as any other [connect]: one send on [T], of the
  cancellation notice, and no close during the call; [T] stays current;
  the handler is assigned to [T] again, which changes nothing when [T]
  already had it and gives the same assignment however often it is
  repeated; and the reaction left behind, run while [T] is still
  current, makes one close attempt on [T]. *)
Theorem C3_connect_current_transport_again (w : World) (T : TransportRef) :
connectedTransport (this w) = Some T ->
transport_send (host w) T disconnectMessage <> ThrowsSync ->
let rejected :=
  rejects (transport_send (host w) T disconnectMessage) in
let w1 := snd (connect T w) in
let w2 := snd (react (afterDisconnectSend rejected) w1) in
fst (connect T w) = Returned tt
/\ sends_on T (trace w1) = sends_on T (trace w) ++ [disconnectMessage]
/\ transport_closes (trace w1) = transport_closes (trace w)
/\ connectedTransport (this w1) = Some T
/\ onmessage w1 = <[T := forwardStringified]> (onmessage w)
/\ (onmessage w !! T = Some forwardStringified -> onmessage w1 = onmessage w)
/\ onmessage (snd (connect T w1)) = onmessage w1
/\ reactions w1 = reactions w ++ [afterDisconnectSend rejected]
/\ transport_closes (trace w2) = transport_closes (trace w1) ++ [T]
/\ connectedTransport (this w2) = Some T.
Proof.
intros Hcurrent Hsend rejected w1 w2.
pose proof (connect_over_current w T T Hcurrent Hsend) as E.
assert (E1 : w1 = snd (connect T w)) by reflexivity.
rewrite E in E1. simpl in E1.
assert (Hc1 : connectedTransport (this w1) = Some T) by (rewrite E1; reflexivity).
destruct (react_afterDisconnectSend rejected w1 T Hc1) as (Ht & Hcl & _ & _).
fold w2 in Ht, Hcl.
split; [rewrite E; reflexivity|].
split.
{ rewrite E1. unfold sends_on. simpl. rewrite flat_map_app. simpl.
  rewrite Nat.eqb_refl. reflexivity. }
split.
{ rewrite E1. simpl. rewrite transport_closes_app. simpl. apply app_nil_r. }
split; [exact Hc1|].
split; [rewrite E1; reflexivity|].
split; [intros Hhad; rewrite E1; simpl; apply insert_id, Hhad|].
split.
{ destruct (connect_frame T w1) as (_ & _ & _ & Hh & _).
  assert (Hsend1 : transport_send (host w1) T disconnectMessage <> ThrowsSync)
    by (rewrite E1; exact Hsend).
  rewrite (connect_over_current w1 T T Hc1 Hsend1). simpl.
  rewrite E1. simpl. apply insert_insert_eq. }
split; [rewrite E1; reflexivity|].
split; [exact Hcl|].
rewrite Ht. exact Hc1.
Qed.

End Facts.

(** * The theorems at work on the sample worlds *)

(** ** Scenarios of the relay on the reference platform *)

(** Transport 1 emits a ping: one send on the WebSocket, of the text
    [JSON.stringify] gives. *)
Example scenario_ping_is_forwarded :
  let ping := JSON.Object [("jsonrpc", JSON.Str "2.0"); ("id", JSON.Number "1");
                           ("method", JSON.Str "ping")] in
  ws_sends (trace (step (TransportMessage 1%nat ping) world_live))
  = [(7%nat, Text (JSON.stringify ping))].
Proof. vm_compute. reflexivity. Qed.

(** The remote side delivers a result: it goes to the current transport. *)
Example scenario_result_is_delivered :
  let text := JSON.stringify (JSON.Object [("jsonrpc", JSON.Str "2.0");
                                           ("id", JSON.Number "1");
                                           ("result", JSON.Object [])]) in
  transport_sends (trace (step (Call_handleProxyMessage (Text text)) world_live))
  = [(1%nat, JSON.Object [("jsonrpc", JSON.Str "2.0"); ("id", JSON.Number "1");
                          ("result", JSON.Object [])])].
Proof. vm_compute. reflexivity. Qed.

(** ** C1 *)



(** ** C3 *)

(** C3 fails as stated.  With transport 1 current, [connect(1)] sends the
    cancellation notice to transport 1, and the settling of that send
    closes transport 1. *)
Lemma C3_counterexample :
  let w1 := step (Call_connect 1%nat) world_A in
  let w2 := step (Settle 0%nat) w1 in
  connectedTransport (this world_A) = Some 1%nat
  /\ transport_sends (trace world_A) = []
  /\ transport_sends (trace w1) = [(1%nat, disconnectMessage)]
  /\ transport_closes (trace w2) = [1%nat].
Proof. vm_compute. repeat split; reflexivity. Qed.

Lemma C3_witness :
  connectedTransport (this world_A) = Some 1%nat
  /\ transport_send (host world_A) 1%nat disconnectMessage <> ThrowsSync
  /\ let w1 := snd (connect 1%nat world_A) in
     sends_on 1%nat (trace w1) = sends_on 1%nat (trace world_A) ++ [disconnectMessage]
     /\ connectedTransport (this w1) = Some 1%nat
     /\ onmessage w1 = onmessage world_A.
Proof.
  split; [reflexivity|]. split; [simpl; discriminate|].
  destruct (C3_connect_current_transport_again world_A 1%nat)
    as (_ & H2 & _ & H4 & _ & H6 & _); [reflexivity | simpl; discriminate |].
  exact (conj H2 (conj H4 (H6 eq_refl))).
Defined.

(** ** C2, C4 *)

(** A handle that reports CLOSING with the flag up: the call still answers
    true, computed from the flag as it was, and leaves the flag down. *)
Example isConnected_while_closing :
  let closing := {| readyState := fun _ => 2;
                    ws_send_throws := fun _ _ => false;
                    transport_send := fun _ _ => Resolves;
                    transport_close := fun _ => Resolves;
                    Date_now := 2000 |} in
  let w := step (HostChange closing) world_live in
  isProxyConnected (this w) = true
  /\ fst (isConnected w) = Returned true
  /\ isProxyConnected (this (snd (isConnected w))) = false
  /\ fst (isConnected (snd (isConnected w))) = Returned false.
Proof. vm_compute. repeat split; reflexivity. Qed.

Lemma C2_witness :
  proxyConnection (this world_hibernated) <> None
  /\ isProxyConnected (this world_hibernated) = true
  /\ (readyState_is (observed_readyState world_hibernated) 3
      || readyState_is (observed_readyState world_hibernated) 2) = true
  /\ exists w', isConnected world_hibernated = (Returned false, w')
                /\ isProxyConnected (this w') = false.
Proof.
  split; [simpl; discriminate|]. split; [reflexivity|]. split; [reflexivity|].
  destruct (C2_isConnected_liveness_and_downgrade world_hibernated)
    as (w' & E & Hdown & _).
  exists w'. split; [exact E|].
  apply Hdown; [simpl; discriminate | reflexivity | reflexivity].
Defined.

Lemma C4_witness :
  let later := [Call_isConnected; Call_forwardToProxy (Text "x");
                WsEvent 7%nat error; Call_isConnected] in
  proxyConnection (this world_hibernated) = Some 7%nat
  /\ readyState (host world_hibernated) 7%nat = 3
  /\ isProxyConnected (this world_hibernated) = true
  /\ fst (isConnected world_hibernated) = Returned false
  /\ isProxyConnected (this (snd (isConnected world_hibernated))) = false
  /\ fst (isConnected (run later (snd (isConnected world_hibernated))))
     = Returned false.
Proof.
  intros later.
  split; [reflexivity|]. split; [reflexivity|]. split; [reflexivity|].
  destruct (C4_closed_handle_is_corrected_for_good world_hibernated 7%nat later)
    as (H1 & H2 & H3 & _); try reflexivity.
  exact (conj H1 (conj H2 H3)).
Defined.

(** ** C6, C7 *)

Lemma C6_witness :
  fst (isConnected world_failing) = Returned true
  /\ proxyConnection (this world_failing) = Some 7%nat
  /\ ws_send_throws (host world_failing) 7%nat (Text "x") = true
  /\ let w1 := snd (forwardToProxy (Text "x") world_failing) in
     fst (forwardToProxy (Text "x") world_failing) = Returned tt
     /\ isProxyConnected (this w1) = false
     /\ ws_sends (trace w1) = ws_sends (trace world_failing) ++ [(7%nat, Text "x")]
     /\ ws_sends (trace (run [Call_forwardToProxy (Text "x");
                              Call_forwardToProxy (Text "y")] w1))
        = ws_sends (trace w1).
Proof.
  split; [reflexivity|]. split; [reflexivity|]. split; [reflexivity|].
  destruct (C6_failed_send_downgrades world_failing 7%nat (Text "x")
              [Call_forwardToProxy (Text "x"); Call_forwardToProxy (Text "y")])
    as (H1 & H2 & H3 & _ & _ & H6); try reflexivity.
  exact (conj H1 (conj H2 (conj H3 H6))).
Defined.

Lemma C7_witness :
  fst (isConnected fresh) = Returned false
  /\ let w1 := snd (forwardToProxy (Binary []) fresh) in
     fst (forwardToProxy (Binary []) fresh) = Returned tt
     /\ ws_sends (trace w1) = ws_sends (trace fresh)
     /\ exists logs, forallb is_console logs = true
          /\ trace w1 = trace fresh ++ logs
                        ++ [Console warn (CannotForward "[Binary Data]")].
Proof.
  split; [reflexivity|].
  destruct (C7_forward_while_disconnected fresh (Binary []))
    as (H1 & H2 & H3 & _); [reflexivity|].
  exact (conj H1 (conj H2 H3)).
Defined.

(** ** C8, C9 *)

(** C8 fails as stated.  The text of an empty object parses, is no
    envelope, and is delivered to the current transport all the same. *)
Lemma C8_counterexample :
  parses_as_Envelope (Text "{}") = false
  /\ connectedTransport (this world_A) = Some 1%nat
  /\ fst (handleProxyMessage (Text "{}") world_A) = Returned tt
  /\ transport_sends (trace world_A) = []
  /\ transport_sends (trace (snd (handleProxyMessage (Text "{}") world_A)))
     = [(1%nat, JSON.Object [])]
  /\ trace (snd (handleProxyMessage (Text "{}") world_A))
     = trace world_A ++ [TransportSend 1%nat (JSON.Object [])].
Proof. vm_compute. repeat split; reflexivity. Qed.

Lemma C8_witness :
  JSON_parse (messageStr (Text "not json")) = None
  /\ JSON_parse (messageStr (Text "{}")) = Some (JSON.Object [])
  /\ connectedTransport (this fresh) = None
  /\ connectedTransport (this world_A) = Some 1%nat
  /\ is_Envelope (JSON.Object []) = false
  /\ fst (handleProxyMessage (Text "not json") world_A) = Returned tt
  /\ transport_sends (trace (snd (handleProxyMessage (Text "not json") world_A)))
     = transport_sends (trace world_A)
  /\ handleProxyMessage (Text "{}") fresh = (Returned tt, fresh)
  /\ transport_sends (trace (snd (handleProxyMessage (Text "{}") world_A)))
     = transport_sends (trace world_A) ++ [(1%nat, JSON.Object [])].
Proof.
  split; [reflexivity|]. split; [reflexivity|]. split; [reflexivity|].
  split; [reflexivity|]. split; [reflexivity|].
  destruct (C8_unparseable_or_no_transport world_A (Text "not json")) as (Hbad & _ & _).
  destruct (Hbad eq_refl) as (H1 & _ & H3 & _).
  destruct (C8_unparseable_or_no_transport fresh (Text "{}")) as (_ & Hnone & _).
  destruct (C8_unparseable_or_no_transport world_A (Text "{}")) as (_ & _ & Hsome).
  destruct (Hsome (JSON.Object []) 1%nat eq_refl eq_refl) as (_ & Hdelivered & _).
  exact (conj H1 (conj H3 (conj (Hnone _ eq_refl eq_refl) Hdelivered))).
Defined.

Lemma C9_witness :
  JSON_parse (messageStr (Text "{}")) = Some (JSON.Object [])
  /\ connectedTransport (this world_failing) = Some 1%nat
  /\ transport_send (host world_failing) 1%nat (JSON.Object []) <> Resolves
  /\ let w1 := snd (handleProxyMessage (Text "{}") world_failing) in
     fst (handleProxyMessage (Text "{}") world_failing) = Returned tt
     /\ this w1 = this world_failing
     /\ reactions w1 = reactions world_failing ++ [afterForwardSend true].
Proof.
  split; [reflexivity|]. split; [reflexivity|]. split; [simpl; discriminate|].
  destruct (C9_delivery_failure_is_per_message world_failing (Text "{}")
              (JSON.Object []) 1%nat)
    as (H1 & H2 & _ & H4 & _); [reflexivity | reflexivity | simpl; discriminate |].
  exact (conj H1 (conj H2 (proj2 H4))).
Defined.

(** ** C10 *)

Lemma C10_witness :
  let w2 := snd (setProxyConnection (Some 8%nat)
                   (snd (setProxyConnection (Some 7%nat) fresh))) in
  readyState (host fresh) 8%nat <> 3
  /\ fst (isConnected w2) = Returned true
  /\ fst (isConnected (snd (dispatchEvent 7%nat close w2))) = Returned false.
Proof.
  intros w2. split; [simpl; discriminate|].
  destruct (C10_close_of_superseded_handle_disconnects fresh 7%nat 8%nat [])
    as (_ & _ & H3 & _ & _ & _ & _ & H8).
  split; [apply H3; simpl; discriminate | exact H8].
Defined.

(** * Beyond the claims *)

Section Beyond.

Context `{Platform}.

(** ** More of [isConnected] and [debugConnectionState] *)

(** A second [isConnected] right after a first changes no field; its
    answer is the first one, except that a handle found CLOSING with the
    flag up answers true the first time and false the second. *)
Theorem isConnected_twice (w : World) :
  let w1 := snd (isConnected w) in
  fst (isConnected w1) = Returned (liveness w && negb (stale w))
  /\ this (snd (isConnected w1)) = this w1
  /\ (fst (isConnected w) = Returned true ->
      fst (isConnected w1) = Returned false ->
      readyState_is (observed_readyState w) 2 = true).
Proof.
  intros w1. unfold w1. rewrite !isConnected_eq. simpl fst. simpl snd.
  break_world w. clear w1.
  unfold after_isConnected, liveness, stale, observed_readyState. simpl.
  destruct conn as [ws|], marked; simpl;
    try (rewrite ?andb_false_r; simpl; repeat split; congruence).
  destruct (readyState host0 ws =? 3) eqn:E3, (readyState host0 ws =? 2) eqn:E2;
    simpl; rewrite ?E3, ?E2; simpl; repeat split; congruence.
Qed.

(** [debugConnectionState] as an equation: the fields [isConnected] leaves,
    and one more log entry. *)
Lemma debugConnectionState_eq (w : World) :
  debugConnectionState w =
    (Returned tt,
     {| this := this (snd (isConnected w));
        host := host w; listeners := listeners w; onmessage := onmessage w;
        reactions := reactions w;
        trace := trace (snd (isConnected w))
                 ++ [Console log
                       (DebugConnectionState
                          (bool_decide (proxyConnection (this w) <> None))
                          (isProxyConnected (this w))
                          (observed_readyState w)
                          (readyStateText (observed_readyState w))
                          (lastConnectionTime (this w))
                          (Date_now (host w) - lastConnectionTime (this w))
                          (liveness w))] |}).
Proof.
  unfold debugConnectionState. cbv [bind field read]. rewrite !isConnected_eq.
  reflexivity.
Qed.

(** [debugConnectionState] is not read-only: it returns normally and
    leaves the fields as [isConnected] would, so it lowers the flag on a
    handle that reports CLOSED or CLOSING; the entry it logs last carries
    the flag as it was before the call next to the answer of [isConnected],
    so it can show [isMarkedConnected] true for a relay it leaves marked
    down. *)
Theorem debugConnectionState_acts_like_isConnected (w : World) :
  let w' := snd (debugConnectionState w) in
  fst (debugConnectionState w) = Returned tt
  /\ this w' = this (snd (isConnected w))
  /\ isProxyConnected (this w') = isProxyConnected (this w) && negb (stale w)
  /\ (exists earlier readyState text last since,
        trace w' = earlier
                   ++ [Console log (DebugConnectionState
                                      (bool_decide (proxyConnection (this w) <> None))
                                      (isProxyConnected (this w))
                                      readyState text last since (liveness w))])
  /\ ws_sends (trace w') = ws_sends (trace w)
  /\ transport_sends (trace w') = transport_sends (trace w)
  /\ listeners w' = listeners w /\ reactions w' = reactions w.
Proof.
  intros w'. unfold w'. rewrite debugConnectionState_eq, isConnected_eq. simpl.
  split; [reflexivity|]. split; [reflexivity|].
  split.
  { unfold stale. destruct (isProxyConnected (this w)) eqn:Hf.
    - destruct (bool_decide (proxyConnection (this w) <> None)
                && true
                && (readyState_is (observed_readyState w) 3
                    || readyState_is (observed_readyState w) 2)) eqn:Hs;
        simpl; [reflexivity | exact Hf].
    - rewrite andb_false_r. simpl. exact Hf. }
  split; [do 5 eexists; reflexivity|].
  rewrite !ws_sends_app, !transport_sends_app,
    (console_no_ws_sends _ (isConnected_logs_console w)). simpl.
  rewrite !app_nil_r.
  split; [reflexivity|].
  split; [|split; reflexivity].
  assert (Hno : transport_sends (isConnected_logs w) = []).
  { unfold isConnected_logs. repeat js_case; reflexivity. }
  rewrite Hno. apply app_nil_r.
Qed.

(** ** More of [setProxyConnection] and the WebSocket events *)

(** Attaching a WebSocket, in whatever state the relay was: the handle is
    that WebSocket, the flag is up, the timestamp is the clock, the current
    transport is untouched, and [isConnected] is true unless the WebSocket
    already reports CLOSED; a [forwardToProxy] that follows sends its payload
    on that WebSocket in exactly that case. *)
Theorem setProxyConnection_attaches
    (w : World) (ws : WebSocketRef) (data : Payload) :
  let w1 := snd (setProxyConnection (Some ws) w) in
  let open := negb (readyState (host w) ws =? 3) in
  fst (setProxyConnection (Some ws) w) = Returned tt
  /\ proxyConnection (this w1) = Some ws
  /\ isProxyConnected (this w1) = true
  /\ lastConnectionTime (this w1) = Date_now (host w)
  /\ connectedTransport (this w1) = connectedTransport (this w)
  /\ fst (isConnected w1) = Returned open
  /\ ws_sends (trace (snd (forwardToProxy data w1)))
     = ws_sends (trace w) ++ (if open then [(ws, data)] else []).
Proof.
  intros w1 open.
  assert (E1 : w1 = snd (setProxyConnection (Some ws) w)) by reflexivity.
  rewrite setProxyConnection_some in E1. simpl in E1. clearbody w1.
  assert (Hlive : liveness w1 = open).
  { rewrite E1. unfold liveness, observed_readyState. reflexivity. }
  assert (Hs1 : ws_sends (trace w1) = ws_sends (trace w)).
  { rewrite E1. simpl. rewrite ws_sends_app. simpl. apply app_nil_r. }
  split; [rewrite setProxyConnection_some; reflexivity|].
  split; [rewrite E1; reflexivity|].
  split; [rewrite E1; reflexivity|].
  split; [rewrite E1; reflexivity|].
  split; [rewrite E1; reflexivity|].
  split; [rewrite isConnected_eq; simpl; rewrite Hlive; reflexivity|].
  destruct open eqn:Hopen.
  - destruct (forwardToProxy_connected data w1 ws Hlive) as (logs & Hlogs & E).
    { rewrite E1. reflexivity. }
    rewrite E. simpl.
    rewrite !ws_sends_app, (console_no_ws_sends _ Hlogs), Hs1. simpl.
    destruct (ws_send_throws (host w1) ws data); simpl; reflexivity.
  - destruct (forwardToProxy_disconnected data w1 Hlive) as (logs & Hlogs & E).
    rewrite E. simpl.
    rewrite !ws_sends_app, (console_no_ws_sends _ Hlogs), Hs1. simpl.
    rewrite !app_nil_r. reflexivity.
Qed.

(** An error listener never touches the handle. *)
Lemma call_listeners_error (ls : list (WebSocketRef * WsEventType))
    (ws : WebSocketRef) (w : World) :
  proxyConnection (this (snd (call_listeners ls ws error w)))
  = proxyConnection (this w)
  /\ (In (ws, error) ls ->
      isProxyConnected (this (snd (call_listeners ls ws error w))) = false).
Proof.
  revert w. induction ls as [|[ws' type'] ls IH]; intros w; simpl.
  - split; [reflexivity | contradiction].
  - cbv [bind when]. unfold same_listener. simpl.
    destruct type'; simpl.
    + rewrite andb_false_r. cbv [ret].
      destruct (IH w) as [Hc Hf]. split; [exact Hc|].
      intros [Heq | Hin]; [discriminate | exact (Hf Hin)].
    + destruct (Nat.eqb ws' ws) eqn:Heq; simpl.
      * js_unfold. simpl.
        match goal with
        | |- context [call_listeners ls ws error ?w1] =>
            destruct (IH w1) as [Hc _];
            destruct (call_listeners_frame ls ws error w1)
              as (_ & _ & _ & _ & _ & _ & _ & _ & _ & _ & Hflag & _);
            destruct (call_listeners ls ws error w1) as [c w2]; simpl in *
        end.
        split; [exact Hc | intros _; apply Hflag; reflexivity].
      * cbv [ret]. destruct (IH w) as [Hc Hf]. split; [exact Hc|].
        intros [Heq' | Hin]; [|exact (Hf Hin)].
        injection Heq' as ->. rewrite Nat.eqb_refl in Heq. discriminate.
Qed.

(** An error event on a WebSocket that was ever attached lowers the flag
    but keeps the handle (a close event clears both): [isConnected] is false
    afterwards although the relay still holds the WebSocket, and it stays
    false until [setProxyConnection] is called again. *)
Theorem error_event_lowers_flag_keeps_handle
    (w : World) (ws : WebSocketRef) (later : list Action) :
  In (ws, error) (listeners w) ->
  forallb (fun a => negb (is_setProxyConnection a)) later = true ->
  let w1 := snd (dispatchEvent ws error w) in
  fst (dispatchEvent ws error w) = Returned tt
  /\ proxyConnection (this w1) = proxyConnection (this w)
  /\ connectedTransport (this w1) = connectedTransport (this w)
  /\ isProxyConnected (this w1) = false
  /\ fst (isConnected w1) = Returned false
  /\ fst (isConnected (run later w1)) = Returned false
  /\ ws_sends (trace (run later w1)) = ws_sends (trace w).
Proof.
  intros Hin Hlater w1.
  unfold w1, dispatchEvent. cbv [bind read].
  destruct (call_listeners_error (listeners w) ws w) as [Hc Hf].
  specialize (Hf Hin).
  destruct (call_listeners_frame (listeners w) ws error w)
    as (H0 & _ & _ & _ & _ & Ht & _ & Hs & _).
  destruct (run_while_disconnected later _ Hlater Hf) as [Hf' Hs'].
  split; [exact H0|]. split; [exact Hc|]. split; [exact Ht|].
  split; [exact Hf|].
  split; [rewrite isConnected_eq; simpl; rewrite liveness_false_of_flag by exact Hf; reflexivity|].
  split; [rewrite isConnected_eq; simpl; rewrite liveness_false_of_flag by exact Hf'; reflexivity|].
  rewrite Hs'. exact Hs.
Qed.

(** ** Which action changes which part of the relay *)

Lemma isConnected_step (w : World) :
  step Call_isConnected w = after_isConnected w.
Proof. unfold step. simpl. cbv [discard]. simpl. rewrite isConnected_eq. reflexivity. Qed.

Lemma debugConnectionState_step (w : World) :
  this (step Call_debugConnectionState w) = this (after_isConnected w)
  /\ listeners (step Call_debugConnectionState w) = listeners w
  /\ onmessage (step Call_debugConnectionState w) = onmessage w
  /\ ws_sends (trace (step Call_debugConnectionState w)) = ws_sends (trace w).
Proof.
  unfold step. simpl. rewrite debugConnectionState_eq.
  rewrite isConnected_eq. simpl.
  rewrite !ws_sends_app, (console_no_ws_sends _ (isConnected_logs_console w)).
  simpl. rewrite !app_nil_r. repeat split.
Qed.

Lemma connect_onmessage (transport : TransportRef) (w : World)
    (t : TransportRef) (h : MessageHandler) :
  onmessage w !! t = Some h ->
  onmessage (snd (connect transport w)) !! t = Some h.
Proof.
  intros Hh. break_world w. unfold connect. js_unfold. simpl in *.
  repeat (js_case; simpl); try exact Hh;
    destruct h; destruct (decide (transport = t)) as [->|Hne];
    rewrite ?lookup_insert_eq, ?lookup_insert_ne by exact Hne; auto.
Qed.

(** The exact list of listeners after one action. *)
Lemma step_listeners (a : Action) (w : World) :
  listeners (step a w) = listeners w ++ added_listeners a.
Proof.
  unfold step. destruct a; simpl; rewrite ?app_nil_r.
  - destruct webSocket as [ws|].
    + rewrite setProxyConnection_some. simpl. rewrite <- app_assoc. reflexivity.
    + rewrite setProxyConnection_null. simpl. rewrite app_nil_r. reflexivity.
  - cbv [discard]. simpl. rewrite isConnected_eq. reflexivity.
  - apply debugConnectionState_step.
  - apply handleProxyMessage_this.
  - cbv [discard]. simpl. apply connect_frame.
  - apply forwardToProxy_frame.
  - unfold dispatchEvent. cbv [bind read]. apply call_listeners_frame.
  - apply call_onmessage_frame.
  - apply settle_this.
  - reflexivity.
Qed.

Lemma step_connectedTransport (a : Action) (w : World) :
  is_connect a = false ->
  connectedTransport (this (step a w)) = connectedTransport (this w).
Proof.
  intros Ha. unfold step. destruct a; simpl in *; try discriminate.
  - apply setProxyConnection_frame.
  - cbv [discard]. simpl. rewrite isConnected_eq.
    apply after_isConnected_connectedTransport.
  - destruct (debugConnectionState_frame w) as (_ & _ & Ht & _). exact Ht.
  - destruct (handleProxyMessage_this data w) as (_ & -> & _). reflexivity.
  - apply forwardToProxy_frame.
  - unfold dispatchEvent. cbv [bind read]. apply call_listeners_frame.
  - apply call_onmessage_frame.
  - destruct (settle_this i w) as (_ & -> & _). reflexivity.
  - reflexivity.
Qed.

Lemma call_onmessage_proxyConnection (t : TransportRef) (message : JSON.value)
    (w : World) :
  proxyConnection (this (snd (call_onmessage t message w)))
  = proxyConnection (this w)
  /\ onmessage (snd (call_onmessage t message w)) = onmessage w.
Proof.
  unfold call_onmessage. cbv [bind read].
  destruct (onmessage w !! t) as [[]|]; simpl; [|split; reflexivity].
  destruct (forwardToProxy_frame (Text (JSON_stringify message)) w)
    as (_ & _ & Ho & _ & Hc & _).
  split; assumption.
Qed.

Lemma step_proxyConnection (a : Action) (w : World) :
  touches_handle a = false ->
  proxyConnection (this (step a w)) = proxyConnection (this w).
Proof.
  intros Ha. unfold step. destruct a; simpl in *; try discriminate.
  - cbv [discard]. simpl. rewrite isConnected_eq.
    apply after_isConnected_proxyConnection.
  - destruct (debugConnectionState_step w) as (Ht & _).
    unfold step in Ht. simpl in Ht. rewrite Ht.
    apply after_isConnected_proxyConnection.
  - destruct (handleProxyMessage_this data w) as (_ & -> & _). reflexivity.
  - cbv [discard]. simpl. apply connect_frame.
  - apply forwardToProxy_frame.
  - destruct type; [discriminate|].
    unfold dispatchEvent. cbv [bind read]. apply call_listeners_error.
  - apply call_onmessage_proxyConnection.
  - destruct (settle_this i w) as (_ & -> & _). reflexivity.
  - reflexivity.
Qed.

Lemma step_onmessage (a : Action) (w : World) (t : TransportRef)
    (h : MessageHandler) :
  onmessage w !! t = Some h -> onmessage (step a w) !! t = Some h.
Proof.
  intros Hh. unfold step. destruct a; simpl.
  - destruct webSocket as [ws|];
      [rewrite setProxyConnection_some | rewrite setProxyConnection_null];
      exact Hh.
  - cbv [discard]. simpl. rewrite isConnected_eq. exact Hh.
  - destruct (debugConnectionState_step w) as (_ & _ & Ho & _).
    unfold step in Ho. simpl in Ho. rewrite Ho. exact Hh.
  - destruct (handleProxyMessage_this data w) as (_ & _ & _ & _ & -> & _).
    exact Hh.
  - cbv [discard]. simpl. apply connect_onmessage, Hh.
  - destruct (forwardToProxy_frame data w) as (_ & _ & -> & _). exact Hh.
  - unfold dispatchEvent. cbv [bind read].
    destruct (call_listeners_frame (listeners w) ws type w)
      as (_ & _ & _ & -> & _). exact Hh.
  - destruct (call_onmessage_proxyConnection t0 message w) as (_ & ->). exact Hh.
  - destruct (settle_this i w) as (_ & _ & _ & _ & -> & _). exact Hh.
  - exact Hh.
Qed.

(** The relay registers two listeners per attached WebSocket, attaches
    again what it attached before, and never removes one: after any
    activity the listeners are the earlier ones followed by a close and an
    error listener for every [setProxyConnection] with a WebSocket, in call
    order. *)
Theorem listeners_only_accumulate (actions : list Action) (w : World) :
  listeners (run actions w) = listeners w ++ flat_map added_listeners actions.
Proof.
  revert w. induction actions as [|a actions IH]; intros w; simpl.
  - symmetry. apply app_nil_r.
  - rewrite IH, step_listeners, <- app_assoc. reflexivity.
Qed.

(** Only [connect] changes the current transport: no other method, no
    WebSocket event, no promise reaction touches [connectedTransport], so in
    particular nothing ever detaches a transport. *)
Theorem only_connect_changes_the_transport (actions : list Action) (w : World) :
  forallb (fun a => negb (is_connect a)) actions = true ->
  connectedTransport (this (run actions w)) = connectedTransport (this w).
Proof.
  revert w. induction actions as [|a actions IH]; intros w Hall; simpl.
  - reflexivity.
  - simpl in Hall. apply andb_true_iff in Hall as [Ha Hall].
    apply negb_true_iff in Ha.
    rewrite (IH _ Hall). apply step_connectedTransport, Ha.
Qed.

(** The handle changes only in [setProxyConnection] and in a close
    listener: a failed send, an error event, a stale readiness or a takeover
    lower at most the flag and leave the WebSocket in place. *)
Theorem handle_changes_only_by_attach_or_close (actions : list Action) (w : World) :
  forallb (fun a => negb (touches_handle a)) actions = true ->
  proxyConnection (this (run actions w)) = proxyConnection (this w).
Proof.
  revert w. induction actions as [|a actions IH]; intros w Hall; simpl.
  - reflexivity.
  - simpl in Hall. apply andb_true_iff in Hall as [Ha Hall].
    apply negb_true_iff in Ha.
    rewrite (IH _ Hall). apply step_proxyConnection, Ha.
Qed.

(** The handler [connect] puts on a transport is never taken off again:
    after a takeover, and after anything else, a message the superseded
    transport emits still goes through [forwardToProxy]. *)
Theorem superseded_transport_still_forwards
    (w : World) (t : TransportRef) (actions : list Action) (message : JSON.value) :
  onmessage w !! t = Some forwardStringified ->
  let w' := run actions w in
  onmessage w' !! t = Some forwardStringified
  /\ call_onmessage t message w'
     = forwardToProxy (Text (JSON_stringify message)) w'.
Proof.
  intros Hh w'.
  assert (Hh' : onmessage w' !! t = Some forwardStringified).
  { unfold w'. clear w'. revert w Hh.
    induction actions as [|a actions IH]; intros w Hh; simpl; [exact Hh|].
    apply IH, step_onmessage, Hh. }
  split; [exact Hh'|].
  unfold call_onmessage. cbv [bind read]. rewrite Hh'. reflexivity.
Qed.

(** ** Invariants of the relay *)

(** Listeners that run leave the flag down; if the flag is up afterwards
    none has run and the fields are as before. *)
Lemma call_listeners_flag_up (ls : list (WebSocketRef * WsEventType))
    (ws : WebSocketRef) (type : WsEventType) (w : World) :
  isProxyConnected (this (snd (call_listeners ls ws type w))) = true ->
  this (snd (call_listeners ls ws type w)) = this w.
Proof.
  revert w. induction ls as [|l ls IH]; intros w; simpl; [reflexivity|].
  cbv [bind when]. destruct (same_listener ws type l).
  - destruct l as [ws' [|]]; simpl; js_unfold; simpl;
      match goal with
      | |- context [call_listeners ls ws type ?w1] =>
          destruct (call_listeners_frame ls ws type w1)
            as (_ & _ & _ & _ & _ & _ & _ & _ & _ & _ & Hflag & _);
          destruct (call_listeners ls ws type w1) as [c w2]; simpl in *
      end;
      intros Hup; rewrite Hflag in Hup by reflexivity; discriminate.
  - cbv [ret]. apply IH.
Qed.

(** After a dispatch the handle is the one before, or none. *)
Lemma call_listeners_handle (ls : list (WebSocketRef * WsEventType))
    (ws : WebSocketRef) (type : WsEventType) (w : World) :
  proxyConnection (this (snd (call_listeners ls ws type w)))
  = proxyConnection (this w)
  \/ proxyConnection (this (snd (call_listeners ls ws type w))) = None.
Proof.
  destruct type.
  - revert w. induction ls as [|l ls IH]; intros w; simpl; [left; reflexivity|].
    cbv [bind when]. destruct (same_listener ws close l).
    + destruct l as [ws' [|]]; simpl; js_unfold; simpl;
        match goal with
        | |- context [call_listeners ls ws close ?w1] =>
            destruct (call_listeners_frame ls ws close w1)
              as (_ & _ & _ & _ & _ & _ & _ & _ & _ & _ & _ & Hnone);
            pose proof (IH w1) as IH1;
            destruct (call_listeners ls ws close w1) as [c w2]; simpl in *
        end.
        * right. apply Hnone. reflexivity.
        * exact IH1.
    + cbv [ret]. apply IH.
  - left. apply call_listeners_error.
Qed.

Lemma step_flag_has_handle (a : Action) (w : World) :
  flag_has_handle w -> flag_has_handle (step a w).
Proof.
  unfold flag_has_handle. intros Hinv.
  assert (Hquiet : touches_handle a = false ->
            (isProxyConnected (this w) = false ->
             isProxyConnected (this (step a w)) = false) ->
            isProxyConnected (this (step a w)) = true ->
            proxyConnection (this (step a w)) <> None).
  { intros Hq Hdown Hup. rewrite (step_proxyConnection a w Hq). apply Hinv.
    destruct (isProxyConnected (this w)); [reflexivity|].
    rewrite Hdown in Hup by reflexivity. discriminate. }
  destruct a;
    try (intros Hup; refine (Hquiet eq_refl _ Hup); intros Hdown;
         match goal with
         | |- context [step ?a w] =>
             exact (proj1 (step_while_disconnected a w eq_refl Hdown))
         end).
  - unfold step. simpl. destruct webSocket as [ws|].
    + rewrite setProxyConnection_some. simpl. discriminate.
    + rewrite setProxyConnection_null. simpl. discriminate.
  - unfold step. simpl. unfold dispatchEvent. cbv [bind read].
    intros Hup. rewrite (call_listeners_flag_up _ _ _ _ Hup).
    apply Hinv. rewrite <- (call_listeners_flag_up _ _ _ _ Hup). exact Hup.
Qed.

(** Starting from a new relay, whatever happens, the flag is never up
    without a handle: [isProxyConnected] implies [proxyConnection !== null]
    in every state the relay reaches. *)
Theorem flag_up_only_with_a_handle (actions : list Action) (w : World) :
  this w = new_McpServerProxy ->
  flag_has_handle (run actions w).
Proof.
  intros Hnew.
  assert (H0 : flag_has_handle w).
  { unfold flag_has_handle. rewrite Hnew. discriminate. }
  clear Hnew. revert w H0.
  induction actions as [|a actions IH]; intros w H0; simpl; [exact H0|].
  apply IH, step_flag_has_handle, H0.
Qed.

Lemma step_handle_origin (a : Action) (w : World) (ws : WebSocketRef) :
  proxyConnection (this (step a w)) = Some ws ->
  proxyConnection (this w) = Some ws \/ a = Call_setProxyConnection (Some ws).
Proof.
  intros Hafter.
  destruct (touches_handle a) eqn:Ht.
  - destruct a; simpl in Ht; try discriminate.
    + unfold step in Hafter. simpl in Hafter. destruct webSocket as [ws'|].
      * rewrite setProxyConnection_some in Hafter. simpl in Hafter.
        right. congruence.
      * rewrite setProxyConnection_null in Hafter. discriminate.
    + unfold step in Hafter. simpl in Hafter.
      unfold dispatchEvent in Hafter. cbv [bind read] in Hafter.
      destruct (call_listeners_handle (listeners w) ws0 type w) as [Heq | Hnone].
      * left. rewrite <- Heq. exact Hafter.
      * rewrite Hnone in Hafter. discriminate.
  - left. rewrite <- (step_proxyConnection a w Ht). exact Hafter.
Qed.

Lemma step_handle_is_watched (a : Action) (w : World) :
  handle_is_watched w -> handle_is_watched (step a w).
Proof.
  unfold handle_is_watched. intros Hinv ws Hafter.
  rewrite step_listeners, !in_app_iff.
  destruct (step_handle_origin a w ws Hafter) as [Hbefore | ->].
  - destruct (Hinv ws Hbefore). tauto.
  - simpl. tauto.
Qed.

(** Starting from a new relay, whatever happens, the WebSocket the relay
    holds has a close listener and an error listener of the relay on it. *)
Theorem held_handle_is_always_watched (actions : list Action) (w : World) :
  this w = new_McpServerProxy ->
  handle_is_watched (run actions w).
Proof.
  intros Hnew.
  assert (H0 : handle_is_watched w).
  { unfold handle_is_watched. rewrite Hnew. discriminate. }
  clear Hnew. revert w H0.
  induction actions as [|a actions IH]; intros w H0; simpl; [exact H0|].
  apply IH, step_handle_is_watched, H0.
Qed.

(** ** What is sent on WebSockets *)

Lemma liveness_true_facts (w : World) :
  liveness w = true ->
  exists ws, proxyConnection (this w) = Some ws
             /\ isProxyConnected (this w) = true
             /\ readyState (host w) ws <> 3.
Proof.
  unfold liveness, observed_readyState. intros Hl.
  apply andb_true_iff in Hl as [Hl Hrs]. apply andb_true_iff in Hl as [Hc Hf].
  destruct (proxyConnection (this w)) as [ws|]; [|discriminate Hc].
  exists ws. simpl in Hrs. apply negb_true_iff, Z.eqb_neq in Hrs. auto.
Qed.

Lemma forwardToProxy_sends (data : Payload) (w : World) :
  ws_sends (trace (snd (forwardToProxy data w)))
  = ws_sends (trace w)
    ++ match proxyConnection (this w) with
       | Some ws => if liveness w then [(ws, data)] else []
       | None => []
       end.
Proof.
  destruct (liveness w) eqn:Hlive.
  - destruct (liveness_true_facts w Hlive) as (ws & Hc & _ & _). rewrite Hc.
    destruct (forwardToProxy_connected data w ws Hlive Hc) as (logs & Hlogs & ->).
    simpl. rewrite !ws_sends_app, (console_no_ws_sends _ Hlogs). simpl.
    destruct (ws_send_throws (host w) ws data); reflexivity.
  - destruct (forwardToProxy_disconnected data w Hlive) as (logs & Hlogs & ->).
    simpl. rewrite !ws_sends_app, (console_no_ws_sends _ Hlogs). simpl.
    destruct (proxyConnection (this w)); rewrite !app_nil_r; reflexivity.
Qed.

(** Whatever happens next sends at most one payload, and sends it only on
    the WebSocket the relay holds at that moment, with the flag up and the
    WebSocket not reporting CLOSED: the relay never writes to a handle it
    has dropped or marked down. *)
Theorem sends_only_on_the_live_handle (a : Action) (w : World) :
  ws_sends (trace (step a w)) = ws_sends (trace w)
  \/ exists ws data,
       ws_sends (trace (step a w)) = ws_sends (trace w) ++ [(ws, data)]
       /\ proxyConnection (this w) = Some ws
       /\ isProxyConnected (this w) = true
       /\ readyState (host w) ws <> 3.
Proof.
  assert (Hfwd : forall data,
            ws_sends (trace (snd (forwardToProxy data w))) = ws_sends (trace w)
            \/ exists ws data',
                 ws_sends (trace (snd (forwardToProxy data w)))
                 = ws_sends (trace w) ++ [(ws, data')]
                 /\ proxyConnection (this w) = Some ws
                 /\ isProxyConnected (this w) = true
                 /\ readyState (host w) ws <> 3).
  { intros data. rewrite forwardToProxy_sends.
    destruct (liveness w) eqn:Hlive.
    - destruct (liveness_true_facts w Hlive) as (ws & Hc & Hf & Hrs).
      rewrite Hc. right. exists ws, data. auto.
    - left. destruct (proxyConnection (this w)); apply app_nil_r. }
  unfold step. destruct a; simpl.
  - left. destruct webSocket as [ws|];
      [rewrite setProxyConnection_some | rewrite setProxyConnection_null];
      simpl; rewrite ws_sends_app; simpl; apply app_nil_r.
  - left. cbv [discard]. simpl. rewrite isConnected_eq.
    apply after_isConnected_ws_sends.
  - left. apply debugConnectionState_step.
  - left. apply handleProxyMessage_this.
  - left. cbv [discard]. simpl. apply connect_frame.
  - apply Hfwd.
  - left. unfold dispatchEvent. cbv [bind read]. apply call_listeners_frame.
  - unfold call_onmessage. cbv [bind read].
    destruct (onmessage w !! t) as [[]|]; simpl; [apply Hfwd | left; reflexivity].
  - left. apply settle_this.
  - left. reflexivity.
Qed.

(** While the WebSocket held is neither CLOSING nor CLOSED, the flag is up
    and no send throws, consecutive [forwardToProxy] calls send every
    payload on that WebSocket, once each, in call order, and leave the
    fields of the relay as they were. *)
Theorem forwards_keep_their_order
    (w : World) (ws : WebSocketRef) (payloads : list Payload) :
  proxyConnection (this w) = Some ws ->
  isProxyConnected (this w) = true ->
  readyState (host w) ws <> 3 ->
  readyState (host w) ws <> 2 ->
  (forall d, In d payloads -> ws_send_throws (host w) ws d = false) ->
  let w' := run (map Call_forwardToProxy payloads) w in
  ws_sends (trace w') = ws_sends (trace w) ++ map (fun d => (ws, d)) payloads
  /\ this w' = this w /\ host w' = host w.
Proof.
  intros Hc Hf H3 H2. revert w Hc Hf H3 H2.
  induction payloads as [|d payloads IH]; intros w Hc Hf H3 H2 Hok; simpl.
  - rewrite app_nil_r. auto.
  - assert (Hlive : liveness w = true).
    { unfold liveness, observed_readyState. rewrite Hc, Hf. simpl.
      apply Z.eqb_neq in H3. rewrite H3. reflexivity. }
    assert (Hstale : stale w = false).
    { unfold stale, observed_readyState. rewrite Hc, Hf. simpl.
      apply Z.eqb_neq in H3, H2. rewrite H3, H2. reflexivity. }
    destruct (forwardToProxy_connected d w ws Hlive Hc) as (logs & Hlogs & E).
    rewrite (Hok d (or_introl eq_refl)) in E.
    assert (E1 : step (Call_forwardToProxy d) w = snd (forwardToProxy d w))
      by reflexivity.
    rewrite E in E1. simpl in E1. rewrite Hstale in E1.
    set (w1 := step (Call_forwardToProxy d) w) in *.
    assert (Ht1 : this w1 = this w) by (rewrite E1; reflexivity).
    assert (Hh1 : host w1 = host w) by (rewrite E1; reflexivity).
    destruct (IH w1) as (Hs & Ht & Hh).
    + rewrite Ht1. exact Hc.
    + rewrite Ht1. exact Hf.
    + rewrite Hh1. exact H3.
    + rewrite Hh1. exact H2.
    + intros d' Hd'. rewrite Hh1. apply Hok. right. exact Hd'.
    + rewrite Hs, Ht, Hh, Ht1, Hh1. repeat split.
      rewrite E1. simpl.
      rewrite !ws_sends_app, (console_no_ws_sends _ Hlogs). simpl.
      rewrite <- app_assoc. reflexivity.
Qed.

(** A WebSocket found CLOSING with the flag up still gets the payload of
    the [forwardToProxy] that finds it so, because [isConnected] answers
    true while it lowers the flag; every later payload is dropped until
    [setProxyConnection] is called again. *)
Theorem closing_handle_gets_one_last_payload
    (w : World) (ws : WebSocketRef) (data : Payload) (later : list Action) :
  proxyConnection (this w) = Some ws ->
  isProxyConnected (this w) = true ->
  readyState (host w) ws = 2 ->
  forallb (fun a => negb (is_setProxyConnection a)) later = true ->
  let w1 := snd (forwardToProxy data w) in
  ws_sends (trace w1) = ws_sends (trace w) ++ [(ws, data)]
  /\ isProxyConnected (this w1) = false
  /\ proxyConnection (this w1) = Some ws
  /\ ws_sends (trace (run later w1)) = ws_sends (trace w1).
Proof.
  intros Hc Hf H2 Hlater w1.
  assert (Hlive : liveness w = true).
  { unfold liveness, observed_readyState. rewrite Hc, Hf. simpl.
    rewrite H2. reflexivity. }
  assert (Hstale : stale w = true).
  { unfold stale, observed_readyState. rewrite Hc, Hf. simpl.
    rewrite H2. reflexivity. }
  destruct (forwardToProxy_connected data w ws Hlive Hc) as (logs & Hlogs & E).
  assert (E1 : w1 = snd (forwardToProxy data w)) by reflexivity.
  rewrite E in E1. simpl in E1. rewrite Hstale in E1. clearbody w1.
  assert (Hdown : isProxyConnected (this w1) = false).
  { rewrite E1. destruct (ws_send_throws (host w) ws data); reflexivity. }
  split.
  { rewrite E1. simpl.
    rewrite !ws_sends_app, (console_no_ws_sends _ Hlogs). simpl.
    destruct (ws_send_throws (host w) ws data); reflexivity. }
  split; [exact Hdown|].
  split.
  { rewrite E1. destruct (ws_send_throws (host w) ws data); simpl; exact Hc. }
  apply (run_while_disconnected later w1 Hlater Hdown).
Qed.

(** ** Takeovers and routing *)

(** [connect] on a relay without a current transport. *)
Lemma connect_first (w : World) (B : TransportRef) :
  connectedTransport (this w) = None ->
  connect B w =
    (Returned tt,
     {| this := set_connectedTransport (Some B) (this w);
        host := host w; listeners := listeners w;
        onmessage := <[B := forwardStringified]> (onmessage w);
        reactions := reactions w;
        trace := trace w ++ [Console log SettingTransport] |}).
Proof.
  intros Hnone. unfold connect. js_unfold. simpl. rewrite Hnone. reflexivity.
Qed.

(** What one [connect] does when the send of the notice returns a
    promise. *)
Lemma connect_step (w : World) (t : TransportRef) :
  sends_return_promises (host w) ->
  transport_sends (trace (step (Call_connect t) w))
  = transport_sends (trace w)
    ++ map (fun a => (a, disconnectMessage)) (current_as_list w)
  /\ connectedTransport (this (step (Call_connect t) w)) = Some t
  /\ transport_closes (trace (step (Call_connect t) w)) = transport_closes (trace w)
  /\ List.length (reactions (step (Call_connect t) w))
     = (List.length (reactions w) + List.length (current_as_list w))%nat
  /\ host (step (Call_connect t) w) = host w.
Proof.
  intros Hhost.
  assert (Estep : step (Call_connect t) w = snd (connect t w)) by reflexivity.
  rewrite Estep. unfold current_as_list.
  destruct (connectedTransport (this w)) as [A|] eqn:Hcur.
  - rewrite (connect_over_current w A t Hcur (Hhost A disconnectMessage)). simpl.
    rewrite transport_sends_app, transport_closes_app, length_app. simpl.
    rewrite app_nil_r. repeat split.
  - rewrite (connect_first w t Hcur). simpl.
    rewrite transport_sends_app, transport_closes_app. simpl.
    rewrite !app_nil_r. repeat split. lia.
Qed.

Lemma last_cons {A : Type} (l : list A) (x d : A) :
  List.last (x :: l) d = List.last l x.
Proof.
  revert x d. induction l as [|y l IH]; intros x d; [reflexivity|].
  change (List.last (x :: y :: l) d) with (List.last (y :: l) d).
  rewrite !IH. reflexivity.
Qed.

(** A run of takeovers on a host whose transports return promises: every
    [connect] sends the cancellation notice to exactly the transport it
    supersedes, in order (the first [connect] of a relay sends nothing),
    the last one is current, one reaction is left per notice, and no close
    has been attempted by the time the calls return. *)
Theorem takeovers_notify_each_predecessor (w : World) (ts : list TransportRef) :
  sends_return_promises (host w) ->
  transport_sends (trace (run (map Call_connect ts) w))
  = transport_sends (trace w)
    ++ map (fun t => (t, disconnectMessage))
         (removelast (current_as_list w ++ ts))
  /\ connectedTransport (this (run (map Call_connect ts) w))
     = List.last (map Some ts) (connectedTransport (this w))
  /\ transport_closes (trace (run (map Call_connect ts) w))
     = transport_closes (trace w)
  /\ List.length (reactions (run (map Call_connect ts) w))
     = (List.length (reactions w)
        + List.length (removelast (current_as_list w ++ ts)))%nat.
Proof.
  revert w. induction ts as [|t ts IH]; intros w Hhost.
  - simpl. rewrite app_nil_r. unfold current_as_list.
    destruct (connectedTransport (this w)); simpl; rewrite app_nil_r;
      repeat split; lia.
  - change (run (map Call_connect (t :: ts)) w)
      with (run (map Call_connect ts) (step (Call_connect t) w)).
    destruct (connect_step w t Hhost) as (Hs & Hc & Hcl & Hr & Hh).
    assert (Hhost1 : sends_return_promises (host (step (Call_connect t) w)))
      by (rewrite Hh; exact Hhost).
    destruct (IH _ Hhost1) as (Hs' & Hc' & Hcl' & Hr').
    assert (Hcur1 : current_as_list (step (Call_connect t) w) = [t])
      by (unfold current_as_list; rewrite Hc; reflexivity).
    rewrite Hcur1 in Hs', Hr'.
    rewrite removelast_app by discriminate.
    change ([t] ++ ts) with (t :: ts) in Hs', Hr'.
    rewrite Hs', Hs, Hc', Hc, Hcl', Hcl, Hr', Hr.
    rewrite map_app, length_app, <- app_assoc.
    repeat split; [|lia].
    change (map Some (t :: ts)) with (Some t :: map Some ts).
    rewrite last_cons. reflexivity.
Qed.

(** The close that a takeover defers goes to whichever transport is
    current when the reaction runs: the reaction reads the field then, it
    does not remember the transport that was superseded. *)
Theorem deferred_close_goes_to_the_current_transport
    (w : World) (i : nat) (rejected : bool) (c : TransportRef) :
  reactions w !! i = Some (afterDisconnectSend rejected) ->
  connectedTransport (this w) = Some c ->
  let w' := step (Settle i) w in
  transport_closes (trace w') = transport_closes (trace w) ++ [c]
  /\ transport_sends (trace w') = transport_sends (trace w)
  /\ reactions w' = delete i (reactions w)
  /\ this w' = this w.
Proof.
  intros Hi Hc. unfold step. simpl. unfold settle. cbv [bind read modify try_catch].
  rewrite Hi. simpl.
  unfold react. js_unfold. simpl.
  destruct rejected; simpl; rewrite Hc; simpl;
    destruct (transport_close (host w) c); simpl;
    rewrite ?transport_closes_app, ?transport_sends_app; simpl;
    rewrite ?app_nil_r; repeat split.
Qed.

(** After a takeover the remote traffic goes to the incoming transport:
    the superseded one got the cancellation notice and gets nothing more. *)
Theorem inbound_goes_to_the_incoming_transport
    (w : World) (A B : TransportRef) (data : Payload) (v : JSON.value) :
  connectedTransport (this w) = Some A ->
  transport_send (host w) A disconnectMessage <> ThrowsSync ->
  JSON_parse (messageStr data) = Some v ->
  let w1 := snd (connect B w) in
  let w2 := snd (handleProxyMessage data w1) in
  transport_sends (trace w2)
  = transport_sends (trace w) ++ [(A, disconnectMessage); (B, v)]
  /\ (A <> B -> sends_on A (trace w2) = sends_on A (trace w) ++ [disconnectMessage])
  /\ connectedTransport (this w2) = Some B.
Proof.
  intros Hcur Hsend Hparse w1 w2.
  assert (E1 : w1 = snd (connect B w)) by reflexivity.
  rewrite (connect_over_current w A B Hcur Hsend) in E1. simpl in E1.
  clearbody w1.
  assert (Hc1 : connectedTransport (this w1) = Some B) by (rewrite E1; reflexivity).
  assert (E2 : w2 = snd (handleProxyMessage data w1)) by reflexivity.
  clearbody w2.
  unfold handleProxyMessage in E2. rewrite Hparse in E2.
  revert E2. js_unfold. simpl. rewrite Hc1. simpl. intros E2.
  split.
  { rewrite E2.
    destruct (transport_send (host w1) B v); simpl;
      rewrite ?transport_sends_app; simpl; rewrite ?app_nil_r;
      rewrite E1; simpl; rewrite transport_sends_app; simpl;
      rewrite <- app_assoc; reflexivity. }
  split.
  { intros Hne. assert (Hba : Nat.eqb B A = false) by (apply Nat.eqb_neq; congruence).
    rewrite E2. unfold sends_on.
    destruct (transport_send (host w1) B v); simpl;
      rewrite ?flat_map_app; simpl; rewrite ?Hba, ?app_nil_r;
      rewrite E1; simpl; rewrite flat_map_app; simpl;
      rewrite Nat.eqb_refl; reflexivity. }
  rewrite E2.
  destruct (transport_send (host w1) B v); simpl; exact Hc1.
Qed.

Lemma connect_returned (w : World) (T : TransportRef) :
  fst (connect T w) = Returned tt ->
  onmessage (snd (connect T w)) !! T = Some forwardStringified
  /\ connectedTransport (this (snd (connect T w))) = Some T.
Proof.
  break_world w. unfold connect. js_unfold. simpl.
  repeat (js_case; simpl); intros Hret; try discriminate;
    rewrite lookup_insert_eq; auto.
Qed.

(** A message emitted by a transport that [connect] accepted goes to the
    remote side as the text [JSON.stringify] gives for it: one send on the
    WebSocket held when [isConnected] is true, none otherwise. *)
Theorem transport_message_reaches_the_remote
    (w : World) (T : TransportRef) (message : JSON.value) :
  fst (connect T w) = Returned tt ->
  let w1 := snd (connect T w) in
  ws_sends (trace (step (TransportMessage T message) w1))
  = ws_sends (trace w)
    ++ match proxyConnection (this w) with
       | Some ws => if liveness w then [(ws, Text (JSON_stringify message))] else []
       | None => []
       end.
Proof.
  intros Hret w1.
  destruct (connect_returned w T Hret) as [Hh _]. fold w1 in Hh.
  destruct (connect_frame T w) as (Hc & Hf & _ & Hhost & _ & Hs & _).
  fold w1 in Hc, Hf, Hhost, Hs.
  unfold step. simpl. unfold call_onmessage. cbv [bind read]. rewrite Hh.
  rewrite forwardToProxy_sends, Hs, Hc.
  replace (liveness w1) with (liveness w); [reflexivity|].
  unfold liveness, observed_readyState. rewrite Hc, Hf, Hhost. reflexivity.
Qed.

Lemma console_no_transport_calls (logs : list Event) :
  forallb is_console logs = true ->
  transport_sends logs = [] /\ transport_closes logs = [].
Proof.
  induction logs as [|e logs IH]; [split; reflexivity|].
  destruct e; simpl; try discriminate. exact IH.
Qed.

(** Whatever happens next makes at most one call on a transport, a [send]
    or a [close], and makes it on the transport that is current at that
    moment: no transport is written to or closed unless the relay holds it
    as [connectedTransport]. *)
Theorem transport_calls_go_to_the_current_transport (a : Action) (w : World) :
  (transport_sends (trace (step a w)) = transport_sends (trace w)
   \/ exists t m, transport_sends (trace (step a w))
                  = transport_sends (trace w) ++ [(t, m)]
                  /\ connectedTransport (this w) = Some t)
  /\ (transport_closes (trace (step a w)) = transport_closes (trace w)
      \/ exists t, transport_closes (trace (step a w))
                   = transport_closes (trace w) ++ [t]
                   /\ connectedTransport (this w) = Some t).
Proof.
  destruct (console_no_transport_calls _ (isConnected_logs_console w)) as [Hls Hlc].
  unfold step. destruct a; simpl.
  - split; left; destruct webSocket as [ws|];
      [rewrite setProxyConnection_some | rewrite setProxyConnection_null
      | rewrite setProxyConnection_some | rewrite setProxyConnection_null];
      simpl; rewrite ?transport_sends_app, ?transport_closes_app; simpl;
      apply app_nil_r.
  - cbv [discard]. simpl. rewrite isConnected_eq. simpl.
    rewrite transport_sends_app, transport_closes_app, Hls, Hlc, !app_nil_r.
    split; left; reflexivity.
  - rewrite debugConnectionState_eq, isConnected_eq. simpl.
    rewrite !transport_sends_app, !transport_closes_app, Hls, Hlc. simpl.
    rewrite !app_nil_r. split; left; reflexivity.
  - split; [|left; apply handleProxyMessage_this].
    unfold handleProxyMessage.
    destruct (JSON_parse (messageStr data)) as [v|]; js_unfold; simpl.
    + destruct (connectedTransport (this w)) as [t|] eqn:Hcur; simpl;
        [|left; reflexivity].
      right. exists t, v.
      destruct (transport_send (host w) t v); simpl;
        rewrite ?transport_sends_app; simpl; rewrite ?app_nil_r; auto.
    + left. rewrite transport_sends_app. simpl. apply app_nil_r.
  - cbv [discard]. simpl. split; [|left; apply connect_frame].
    unfold connect. js_unfold. simpl.
    destruct (connectedTransport (this w)) as [t|] eqn:Hcur; simpl.
    + right. exists t, disconnectMessage.
      destruct (transport_send (host w) t disconnectMessage); simpl;
        rewrite ?transport_sends_app; simpl; rewrite ?app_nil_r; auto.
    + left. rewrite transport_sends_app. simpl. apply app_nil_r.
  - destruct (forwardToProxy_frame data w) as (_ & _ & _ & _ & _ & _ & _ & Hs & Hc).
    split; left; assumption.
  - unfold dispatchEvent. cbv [bind read].
    destruct (call_listeners_frame (listeners w) ws type w)
      as (_ & _ & _ & _ & _ & _ & _ & _ & Hs & Hc & _).
    split; left; assumption.
  - unfold call_onmessage. cbv [bind read].
    destruct (onmessage w !! t) as [[]|]; simpl; [|split; left; reflexivity].
    destruct (forwardToProxy_frame (Text (JSON_stringify message)) w)
      as (_ & _ & _ & _ & _ & _ & _ & Hs & Hc).
    split; left; assumption.
  - split; [left; apply settle_this|].
    unfold settle. cbv [bind read modify try_catch].
    destruct (reactions w !! i) as [[rejected|rejected]|]; simpl;
      [| left | left; reflexivity].
    + unfold react. js_unfold. simpl.
      destruct (connectedTransport (this w)) as [c|] eqn:Hcur.
      * right. exists c.
        destruct rejected; simpl; rewrite Hcur; simpl;
          destruct (transport_close (host w) c); simpl;
          rewrite ?transport_closes_app; simpl; rewrite ?app_nil_r; auto.
      * left. destruct rejected; simpl; rewrite Hcur; simpl;
          rewrite ?transport_closes_app; simpl; rewrite ?app_nil_r; reflexivity.
    + unfold react. js_unfold.
      destruct rejected; simpl;
        rewrite ?transport_closes_app; simpl; rewrite ?app_nil_r; reflexivity.
  - split; left; reflexivity.
Qed.
End Beyond.

(** * The further theorems at work on the sample worlds *)

Lemma error_event_lowers_flag_keeps_handle_witness :
  In (7%nat, error) (listeners world_live)
  /\ let w1 := snd (dispatchEvent 7%nat error world_live) in
     proxyConnection (this w1) = Some 7%nat
     /\ isProxyConnected (this w1) = false
     /\ fst (isConnected w1) = Returned false
     /\ ws_sends (trace (run [Call_forwardToProxy (Text "x")] w1))
        = ws_sends (trace world_live).
Proof.
  split; [simpl; tauto|].
  destruct (error_event_lowers_flag_keeps_handle world_live 7%nat
              [Call_forwardToProxy (Text "x")])
    as (_ & H2 & _ & H4 & H5 & _ & H7); [simpl; tauto | reflexivity |].
  exact (conj H2 (conj H4 (conj H5 H7))).
Defined.

Lemma only_connect_changes_the_transport_witness :
  let actions := [Call_setProxyConnection (Some 8%nat); WsEvent 7%nat close;
                  Call_handleProxyMessage (Text "{}"); Settle 0%nat;
                  Call_setProxyConnection None] in
  forallb (fun a => negb (is_connect a)) actions = true
  /\ connectedTransport (this (run actions world_live)) = Some 1%nat.
Proof.
  intros actions. split; [reflexivity|].
  exact (only_connect_changes_the_transport actions world_live eq_refl).
Defined.

Lemma handle_changes_only_by_attach_or_close_witness :
  let actions := [WsEvent 7%nat error; Call_forwardToProxy (Text "x");
                  Call_connect 2%nat; Settle 0%nat; Call_isConnected] in
  forallb (fun a => negb (touches_handle a)) actions = true
  /\ proxyConnection (this (run actions world_failing)) = Some 7%nat.
Proof.
  intros actions. split; [reflexivity|].
  exact (handle_changes_only_by_attach_or_close actions world_failing eq_refl).
Defined.

Lemma superseded_transport_still_forwards_witness :
  onmessage world_live !! 1%nat = Some forwardStringified
  /\ let w' := run [Call_connect 2%nat; Settle 0%nat] world_live in
     connectedTransport (this w') = Some 2%nat
     /\ onmessage w' !! 1%nat = Some forwardStringified
     /\ call_onmessage 1%nat JSON.Null w' = forwardToProxy (Text "null") w'.
Proof.
  split; [reflexivity|].
  destruct (superseded_transport_still_forwards world_live 1%nat
              [Call_connect 2%nat; Settle 0%nat] JSON.Null)
    as [H1 H2]; [reflexivity|].
  exact (conj eq_refl (conj H1 H2)).
Defined.

Lemma flag_up_only_with_a_handle_witness :
  this fresh = new_McpServerProxy
  /\ flag_has_handle
       (run [Call_setProxyConnection (Some 7%nat); WsEvent 7%nat close;
             Call_setProxyConnection (Some 8%nat); WsEvent 8%nat error] fresh).
Proof.
  split; [reflexivity|].
  exact (flag_up_only_with_a_handle _ fresh eq_refl).
Defined.

Lemma held_handle_is_always_watched_witness :
  this fresh = new_McpServerProxy
  /\ handle_is_watched
       (run [Call_setProxyConnection (Some 7%nat);
             Call_setProxyConnection (Some 8%nat); WsEvent 7%nat error] fresh).
Proof.
  split; [reflexivity|].
  exact (held_handle_is_always_watched _ fresh eq_refl).
Defined.

Lemma forwards_keep_their_order_witness :
  let payloads := [Text "a"; Binary []; Text "b"] in
  proxyConnection (this world_live) = Some 7%nat
  /\ isProxyConnected (this world_live) = true
  /\ readyState (host world_live) 7%nat <> 3
  /\ readyState (host world_live) 7%nat <> 2
  /\ (forall d, In d payloads -> ws_send_throws (host world_live) 7%nat d = false)
  /\ ws_sends (trace (run (map Call_forwardToProxy payloads) world_live))
     = ws_sends (trace world_live)
       ++ [(7%nat, Text "a"); (7%nat, Binary []); (7%nat, Text "b")].
Proof.
  intros payloads.
  split; [reflexivity|]. split; [reflexivity|].
  split; [simpl; discriminate|]. split; [simpl; discriminate|].
  split; [intros d _; reflexivity|].
  destruct (forwards_keep_their_order world_live 7%nat payloads) as (Hs & _);
    [reflexivity | reflexivity | simpl; discriminate | simpl; discriminate
    | intros d _; reflexivity |].
  exact Hs.
Defined.

Lemma closing_handle_gets_one_last_payload_witness :
  proxyConnection (this world_closing) = Some 7%nat
  /\ isProxyConnected (this world_closing) = true
  /\ readyState (host world_closing) 7%nat = 2
  /\ let w1 := snd (forwardToProxy (Text "last") world_closing) in
     ws_sends (trace w1) = ws_sends (trace world_closing) ++ [(7%nat, Text "last")]
     /\ isProxyConnected (this w1) = false
     /\ ws_sends (trace (run [Call_forwardToProxy (Text "next")] w1))
        = ws_sends (trace w1).
Proof.
  split; [reflexivity|]. split; [reflexivity|]. split; [reflexivity|].
  destruct (closing_handle_gets_one_last_payload world_closing 7%nat (Text "last")
              [Call_forwardToProxy (Text "next")])
    as (H1 & H2 & _ & H4); try reflexivity.
  exact (conj H1 (conj H2 H4)).
Defined.

Lemma takeovers_notify_each_predecessor_witness :
  sends_return_promises (host fresh)
  /\ transport_sends (trace (run (map Call_connect [1%nat; 2%nat; 3%nat]) fresh))
     = [(1%nat, disconnectMessage); (2%nat, disconnectMessage)]
  /\ connectedTransport (this (run (map Call_connect [1%nat; 2%nat; 3%nat]) fresh))
     = Some 3%nat.
Proof.
  assert (Hhost : sends_return_promises (host fresh))
    by (intros t m; simpl; discriminate).
  split; [exact Hhost|].
  destruct (takeovers_notify_each_predecessor fresh [1%nat; 2%nat; 3%nat] Hhost)
    as (Hs & Hc & _).
  exact (conj Hs Hc).
Defined.

Lemma deferred_close_goes_to_the_current_transport_witness :
  reactions world_takeover !! 0%nat = Some (afterDisconnectSend false)
  /\ connectedTransport (this world_takeover) = Some 2%nat
  /\ transport_closes (trace (step (Settle 0%nat) world_takeover))
     = transport_closes (trace world_takeover) ++ [2%nat].
Proof.
  split; [reflexivity|]. split; [reflexivity|].
  destruct (deferred_close_goes_to_the_current_transport world_takeover 0%nat
              false 2%nat) as (H1 & _); [reflexivity | reflexivity |].
  exact H1.
Defined.

Lemma inbound_goes_to_the_incoming_transport_witness :
  connectedTransport (this world_A) = Some 1%nat
  /\ transport_send (host world_A) 1%nat disconnectMessage <> ThrowsSync
  /\ JSON_parse (messageStr (Text "[]")) = Some (JSON.Array [])
  /\ transport_sends
       (trace (snd (handleProxyMessage (Text "[]") (snd (connect 2%nat world_A)))))
     = transport_sends (trace world_A)
       ++ [(1%nat, disconnectMessage); (2%nat, JSON.Array [])].
Proof.
  split; [reflexivity|]. split; [simpl; discriminate|]. split; [reflexivity|].
  destruct (inbound_goes_to_the_incoming_transport world_A 1%nat 2%nat
              (Text "[]") (JSON.Array [])) as (H1 & _);
    [reflexivity | simpl; discriminate | reflexivity |].
  exact H1.
Defined.

Lemma transport_message_reaches_the_remote_witness :
  fst (connect 2%nat world_live) = Returned tt
  /\ ws_sends (trace (step (TransportMessage 2%nat JSON.Null)
                        (snd (connect 2%nat world_live))))
     = ws_sends (trace world_live) ++ [(7%nat, Text "null")].
Proof.
  split; [reflexivity|].
  exact (transport_message_reaches_the_remote world_live 2%nat JSON.Null eq_refl).
Defined.
